(** * EMEPy geometries: a shallow embedding of [emepy/geometries.py]

    The development follows the Python module class by class.  Python
    floats are modelled as rationals ([Q]); a value that may be [None] is
    an [option]; a call that may raise returns a [result].
    The libraries the module calls but does not define (numpy, shapely,
    the mode solver [MSEMpy]) are interfaces: numpy's array helpers are
    written out for one-dimensional arrays, shapely and the mode solver
    are type classes.

    The edges of the channels of [WaveguideChannels], which decide on
    which side of an edge a sample falls, are computed as the source
    computes them, each operation rounded to binary64 ([binary64]).  The
    arithmetic of [DynamicRect2D] is exact: rounding is not modelled
    there, and [a / 0] is [0] where numpy yields nan or inf; the
    statements on cell values are for cells of positive width and
    height. *)

From Stdlib Require Import QArith Qminmax Lqa Lia.
From stdpp Require Import base list strings.

Local Open Scope Q_scope.

(** ** Exceptions and results *)

(** [TypeError], [ValueError] and [AttributeError] are what the interpreter
    and numpy raise on the paths modelled below.  [ConfigurationError] and
    [GeometryError] are the two error kinds named by the specification. *)
Inductive exn : Type :=
  | TypeError
  | ValueError
  | AttributeError
  | ConfigurationError
  | GeometryError.

Inductive result (A : Type) : Type :=
  | Ok (a : A)
  | Raise (e : exn).
Arguments Ok {A} a.
Arguments Raise {A} e.

#[global] Instance result_ret : MRet result := fun A a => Ok a.
#[global] Instance result_bind : MBind result := fun A B f m =>
  match m with
  | Ok a => f a
  | Raise e => Raise e
  end.

Definition is_ok {A} (r : result A) : bool :=
  match r with Ok _ => true | Raise _ => false end.

(** A [for] loop over [l] that threads the loop state [s] and stops at the
    first exception. *)
Fixpoint for_ {A S : Type} (l : list A) (body : A -> S -> result S) (s : S)
  : result S :=
  match l with
  | [] => Ok s
  | a :: l' => s' ← body a s; for_ l' body s'
  end.

(** ** Python sequences *)

(** [enumerate(l, start)] *)
Fixpoint enumerate_from {A : Type} (start : nat) (l : list A) : list (nat * A) :=
  match l with
  | [] => []
  | a :: l' => (start, a) :: enumerate_from (S start) l'
  end.

Definition enumerate {A : Type} (l : list A) : list (nat * A) :=
  enumerate_from 0 l.

(** [l[:-1]] *)
Definition but_last {A : Type} (l : list A) : list A :=
  take (length l - 1) l.

(** [l[1:]] *)
Definition from_1 {A : Type} (l : list A) : list A := drop 1 l.

(** [l[::2]]: the elements at positions 0, 2, 4, ... *)
Fixpoint step_2 {A : Type} (l : list A) : list A :=
  match l with
  | [] => []
  | [a] => [a]
  | a :: _ :: l' => a :: step_2 l'
  end.

(** [zip(a, b)] stops at the shorter argument, as [zip] of stdpp does. *)
Definition pyzip {A B : Type} (a : list A) (b : list B) : list (A * B) :=
  zip a b.

(** [[i for j in design for i in j]] on a list of pairs *)
Definition flatten_pairs {A : Type} (l : list (A * A)) : list A :=
  concat (map (fun j => [fst j; snd j]) l).

(** ** Binary64 arithmetic

    A Python float is a binary64 number, here the rational it denotes; an
    operation on floats yields the binary64 number nearest to the exact
    result, ties to even.  Subnormal numbers are included; results beyond
    the largest binary64 number (inf, nan) are not modelled.  A decimal
    literal of the source denotes [round] of its decimal value. *)

Module binary64.

(** The integer nearest to [n / d] for [n >= 0], ties to the even one. *)
Definition nearest_even (n : Z) (d : positive) : Z :=
  let q := (n / Z.pos d)%Z in
  let r := (n mod Z.pos d)%Z in
  match (2 * r ?= Z.pos d)%Z with
  | Lt => q
  | Gt => (q + 1)%Z
  | Eq => if Z.even q then q else (q + 1)%Z
  end.

(** [floor (log2 (n / d))] for positive [n] and [d]. *)
Definition floor_log2 (n d : positive) : Z :=
  let l := (Z.log2 (Z.pos n) - Z.log2 (Z.pos d))%Z in
  if (Z.pos d * 2 ^ Z.max 0 l <=? Z.pos n * 2 ^ Z.max 0 (- l))%Z
  then l else (l - 1)%Z.

(** The binary64 number nearest to [n / d]: 53 significant bits, the
    exponent of the last bit not below -1074. *)
Definition round_pos (n d : positive) : Q :=
  let e := Z.max (floor_log2 n d - 52) (-1074) in
  let m :=
    if (0 <=? e)%Z
    then nearest_even (Z.pos n) (d * Z.to_pos (2 ^ e))
    else nearest_even (Z.pos n * 2 ^ (- e)) d in
  if (0 <=? e)%Z
  then inject_Z (m * 2 ^ e)
  else Qred (m # Z.to_pos (2 ^ (- e))).

Definition round (q : Q) : Q :=
  match Qnum q with
  | Z0 => 0
  | Z.pos n => round_pos n (Qden q)
  | Z.neg n => - round_pos n (Qden q)
  end.

Definition add (a b : Q) : Q := round (a + b).
Definition sub (a b : Q) : Q := round (a - b).
Definition mul (a b : Q) : Q := round (a * b).
Definition of_int (z : Z) : Q := round (inject_Z z).

End binary64.

(** ** numpy, for one-dimensional arrays *)

Module np.

  (** [np.linspace(start, stop, num)]: [num] samples [start + i * step] with
      [step = (stop - start) / (num - 1)], the last one set to [stop]. *)
Definition linspace (start stop : Q) (num : nat) : list Q :=
    match num with
    | O => []
    | S div =>
        let step := (stop - start) / inject_Z (Z.of_nat div) in
        match div with
        | O => [start]
        | S _ =>
            map (fun i => inject_Z (Z.of_nat i) * step + start) (seq 0 div)
              ++ [stop]
        end
    end.

  (** [np.linspace] with a Python int for the count: a negative count is a
    [ValueError]. *)
Definition linspace_int (start stop : Q) (num : Z) : result (list Q) :=
  if (num <? 0)%Z then Raise ValueError
  else Ok (linspace start stop (Z.to_nat num)).

(** [np.ones(k)] and [np.zeros((k, m))] *)
Definition ones (k : nat) : list Q := replicate k 1.
Definition zeros2 (k m : nat) : list (list (option Q)) :=
    replicate k (replicate m (Some 0)).

  (** [a * s] for an array [a] and a Python scalar [s]: the product is
      taken element by element, so [None] raises as soon as there is an
      element. *)
Definition mul_scalar (a : list Q) (s : option Q) : result (list (option Q)) :=
    match s with
    | Some s => Ok (map (fun v => Some (v * s)) a)
    | None => match a with [] => Ok [] | _ :: _ => Raise TypeError end
    end.

  (** Broadcasting of two one-dimensional operands: equal lengths, or one
      of the two has a single element; anything else is a [ValueError]. *)
Definition broadcast2 {A B C : Type} (f : A -> B -> C)
      (xs : list A) (ys : list B) : result (list C) :=
    match xs, ys with
    | [a], _ => Ok (map (f a) ys)
    | _, [b] => Ok (map (fun a => f a b) xs)
    | _, _ =>
        if Nat.eqb (length xs) (length ys) then Ok (zip_with f xs ys)
        else Raise ValueError
    end.

  (** The element of [l] that broadcasting pairs with position [i] of the
    result: the only element of a one-element array, else the [i]-th. *)
Definition broadcast_at {A : Type} (l : list A) (i : nat) : option A :=
  match l with
  | [a] => Some a
  | _ => l !! i
  end.

(** [np.where(cond, v, a)] with a scalar [v] *)
Definition where_ {A : Type} (cond : list bool) (v : A) (a : list A)
    : result (list A) :=
    broadcast2 (fun (c : bool) old => if c then v else old) cond a.

End np.

(** ** shapely *)

Inductive geometry : Type :=
  | Point (x y : Q)
  | Polygon (shell : list (Q * Q))
  | buffer (g : geometry) (distance : Q).

(** The two queries the module makes: [a.intersects(b)] and
    [a.intersection(b).area]. *)
Class Shapely : Type := {
  intersects : geometry -> geometry -> bool;
  intersection_area : geometry -> geometry -> Q
}.

(** The rectangle [get_n] builds for a grid cell. *)
Definition pixel (xl xu zl zu : Q) : geometry :=
  Polygon [(xl, zl); (xl, zu); (xu, zu); (xu, zl)].

(** What the rasterizer relies on: the part of a non-degenerate cell that
    a shape covers has an area between zero and the area of the cell. *)
Class ShapelyLaws (S : Shapely) : Prop := {
  intersection_area_nonneg : forall xl xu zl zu g,
    xl < xu -> zl < zu -> 0 <= intersection_area (pixel xl xu zl zu) g;
  intersection_area_le : forall xl xu zl zu g,
    xl < xu -> zl < zu ->
    intersection_area (pixel xl xu zl zu) g <= (xu - xl) * (zu - zl)
}.

(** [np.sin] and [np.pi], used only for the initial design. *)
Class Trig : Type := {
  sin : Q -> Q;
  pi : Q
}.

(** ** The mode solver and the layer record *)

(** The keyword arguments of a call [MSEMpy(...)].  [None] in [kw_n] also
    stands for a call that does not pass [n]. *)
Record MSEMpy_kwargs : Type := {
  kw_wavelength : Q;
  kw_width : option Q;
  kw_thickness : option Q;
  kw_num_modes : option nat;
  kw_cladding_width : Q;
  kw_cladding_thickness : Q;
  kw_core_index : option Q;
  kw_cladding_index : option Q;
  kw_x : option (list Q);
  kw_y : option (list Q);
  kw_mesh : nat;
  kw_accuracy : Q;
  kw_boundary : string;
  kw_n : option (list (option Q));
  kw_PML : bool
}.

(** [emepy.fd.MSEMpy]: the constructor of the mode solver. *)
Class ModeSolver : Type := {
  solver : Type;
  MSEMpy : MSEMpy_kwargs -> result solver
}.

(** Modelled from the spec: the mode-solver constructor [MSEMpy] of
    [emepy.fd], which is not part of [geometries.py].  The specification
    describes it as [build(...)] returning an opaque solver handle whose
    solving is deferred; the handle keeps the arguments it was built
    from. *)
Definition spec_solver : ModeSolver :=
  {| solver := MSEMpy_kwargs; MSEMpy := fun kw => Ok kw |}.

(** [emepy.models.Layer(mode_solver, num_modes, wavelength, length)] *)
Record Layer `{ModeSolver} : Type := {
  layer_mode_solver : solver;
  layer_num_modes : nat;
  layer_wavelength : Q;
  layer_length : Q
}.

(** [class Geometry]: the layers, in order. *)
Definition Geometry `{ModeSolver} : Type := list Layer.

(** ** [class EMpyGeometryParameters] *)

Module EMpyGeometryParameters.

Record t : Type := {
    wavelength : Q;
    cladding_width : Q;
    cladding_thickness : Q;
    core_index : option Q;
    cladding_index : option Q;
    x : option (list Q);
    y : option (list Q);
    mesh : nat;
    accuracy : Q;
    boundary : string;
    PML : bool
  }.

  (** [EMpyGeometryParameters()] with the defaults of [__init__], and the
      keywords the examples of the module set. *)
Definition default : t :=
    {| wavelength := 1.55e-6;
       cladding_width := 2.5e-6;
       cladding_thickness := 2.5e-6;
       core_index := None;
       cladding_index := None;
       x := None;
       y := None;
       mesh := 128;
       accuracy := 1e-8;
       boundary := "0000";
       PML := false |}.

Definition with_mesh_indices (mesh' : nat) (core clad : option Q) : t :=
    {| wavelength := wavelength default;
       cladding_width := cladding_width default;
       cladding_thickness := cladding_thickness default;
       core_index := core;
       cladding_index := clad;
       x := None;
       y := None;
       mesh := mesh';
       accuracy := accuracy default;
       boundary := boundary default;
       PML := PML default |}.

Definition with_x (self : t) (x' : option (list Q)) : t :=
    {| wavelength := wavelength self;
       cladding_width := cladding_width self;
       cladding_thickness := cladding_thickness self;
       core_index := core_index self;
       cladding_index := cladding_index self;
       x := x';
       y := y self;
       mesh := mesh self;
       accuracy := accuracy self;
       boundary := boundary self;
       PML := PML self |}.

(** [setattr(key, val)]: the builtin takes three arguments, so the call
    with two raises. *)
Definition setattr2 {K V : Type} (key : K) (val : V) : result unit :=
  Raise TypeError.

(** [__init__] with its keyword arguments and the extra keywords
    [**kwargs], in the order of the call. *)
Definition __init__ {V : Type} (wavelength cladding_width cladding_thickness : Q)
    (core_index cladding_index : option Q) (x y : option (list Q))
    (mesh : nat) (accuracy : Q) (boundary : string) (PML : bool)
    (kwargs : list (string * V)) : result t :=
  let self :=
    {| wavelength := wavelength;
       cladding_width := cladding_width;
       cladding_thickness := cladding_thickness;
       core_index := core_index;
       cladding_index := cladding_index;
       x := x;
       y := y;
       mesh := mesh;
       accuracy := accuracy;
       boundary := boundary;
       PML := PML |} in
  _ ← for_ kwargs (fun '(key, val) _ => setattr2 key val) tt;
  Ok self.

Section Solver.
Context `{ModeSolver}.

Definition get_solver_rect (self : t) (width thickness : Q) (num_modes : nat)
      : result solver :=
      MSEMpy
        {| kw_wavelength := wavelength self;
           kw_width := Some width;
           kw_thickness := Some thickness;
           kw_num_modes := Some num_modes;
           kw_cladding_width := cladding_width self;
           kw_cladding_thickness := cladding_thickness self;
           kw_core_index := core_index self;
           kw_cladding_index := cladding_index self;
           kw_x := x self;
           kw_y := y self;
           kw_mesh := mesh self;
           kw_accuracy := accuracy self;
           kw_boundary := boundary self;
           kw_n := None;
           kw_PML := PML self |}.

Definition get_solver_index (self : t) (thickness : option Q)
        (num_modes : option nat) (n : option (list (option Q)))
      : result solver :=
      MSEMpy
        {| kw_wavelength := wavelength self;
           kw_width := None;
           kw_thickness := thickness;
           kw_num_modes := num_modes;
           kw_cladding_width := cladding_width self;
           kw_cladding_thickness := cladding_thickness self;
           kw_core_index := core_index self;
           kw_cladding_index := cladding_index self;
           kw_x := x self;
           kw_y := y self;
           kw_mesh := mesh self;
           kw_accuracy := accuracy self;
           kw_boundary := boundary self;
           kw_n := n;
           kw_PML := PML self |}.
End Solver.

End EMpyGeometryParameters.

Abbreviation Params := EMpyGeometryParameters.t.

(** ** [class Waveguide] *)

Module Waveguide.
Import EMpyGeometryParameters.

Definition __init__ `{ModeSolver} (params : Params)
      (width thickness length : Q) (num_modes : nat) : result Geometry :=
    mode_solver ← get_solver_rect params width thickness num_modes;
    Ok [ {| layer_mode_solver := mode_solver;
            layer_num_modes := num_modes;
            layer_wavelength := wavelength params;
            layer_length := length |} ].

End Waveguide.

(** ** [class WaveguideChannels] *)

Module WaveguideChannels.
Import EMpyGeometryParameters.

  (** The interval of channel [out], as the loop computes it: every
    operation is a float operation, and the ints [num_channels - 1] and
    [out] are converted to floats where they meet one. *)
Definition starting_center (width gap : Q) (num_channels : nat) : Q :=
  binary64.mul
    (binary64.mul (-0.5) (binary64.of_int (Z.of_nat num_channels - 1)))
    (binary64.add gap width).
Definition center (width gap : Q) (num_channels out : nat) : Q :=
  binary64.add (starting_center width gap num_channels)
    (binary64.mul (binary64.of_int (Z.of_nat out)) (binary64.add gap width)).
Definition left_edge (width gap : Q) (num_channels out : nat) : Q :=
  binary64.sub (center width gap num_channels out) (binary64.mul 0.5 width).
Definition right_edge (width gap : Q) (num_channels out : nat) : Q :=
  binary64.add (center width gap num_channels out) (binary64.mul 0.5 width).

Arguments starting_center : simpl never.
Arguments center : simpl never.
Arguments left_edge : simpl never.
Arguments right_edge : simpl never.

(** [xi] lies in the interval of channel [out], between the two computed
    edges. *)
Definition inside (width gap : Q) (num_channels out : nat) (xi : Q) : Prop :=
  left_edge width gap num_channels out <= xi /\
  xi <= right_edge width gap num_channels out.

(** What an entry [v] at position [i] of the profile is once the channels
    below [b] have been written: the core index, for a sample inside a
    channel that is not excluded, or else the cladding index. *)
Definition entry_after (params : Params) (width gap clad : Q)
    (num_channels : nat) (exclude_indices : list nat) (xs : list Q)
    (b : nat) (i : nat) (v : option Q) : Prop :=
  (v = core_index params /\
   exists k xi, (k < b)%nat /\ (k ∉ exclude_indices) /\
                np.broadcast_at xs i = Some xi /\
                inside width gap num_channels k xi) \/
  (v = Some clad /\
   forall k xi, (k < b)%nat -> k ∉ exclude_indices ->
                np.broadcast_at xs i = Some xi ->
                ~ inside width gap num_channels k xi).

(** [(left_edge <= params.x) * (params.x <= right_edge)]: comparing a
      float with [None] is a [TypeError]. *)
Definition in_channel (px : option (list Q)) (l r : Q) : result (list bool) :=
    match px with
    | None => Raise TypeError
    | Some xs => Ok (map (fun xi => Qle_bool l xi && Qle_bool xi r) xs)
    end.

  (** The part of [__init__] under the comment [# Create n]. *)
Definition create_n (params : Params) (width gap : Q) (num_channels : nat)
      (exclude_indices : list nat) : result (list (option Q)) :=
    n_output ← np.mul_scalar (np.ones (mesh params)) (cladding_index params);
    for_ (seq 0 num_channels)
      (fun out n_output =>
         if bool_decide (out ∉ exclude_indices) then
           cond ← in_channel (x params)
                    (left_edge width gap num_channels out)
                    (right_edge width gap num_channels out);
           np.where_ cond (core_index params) n_output
         else Ok n_output)
      n_output.

Definition __init__ `{ModeSolver} (params : Params)
      (width thickness length : Q) (num_modes : nat) (gap : Q)
      (num_channels : nat) (exclude_indices : list nat) : result Geometry :=
    n_output ← create_n params width gap num_channels exclude_indices;
    output_channel ←
      get_solver_index params (Some thickness) (Some num_modes) (Some n_output);
    Ok [ {| layer_mode_solver := output_channel;
            layer_num_modes := num_modes;
            layer_wavelength := wavelength params;
            layer_length := length |} ].

End WaveguideChannels.

(** ** [class BraggGrating] and [class DirectionalCoupler] *)

Module BraggGrating.
Definition __init__ `{ModeSolver} (params_left params_right : Params)
      (width_left thickness_left length_left : Q)
      (width_right thickness_right length_right : Q) (num_modes : nat)
    : result Geometry :=
    waveguide_left ←
      Waveguide.__init__ params_left width_left thickness_left length_left num_modes;
    waveguide_right ←
      Waveguide.__init__ params_right width_right thickness_right length_right num_modes;
    Ok (waveguide_left ++ waveguide_right).
End BraggGrating.

Module DirectionalCoupler.
Definition __init__ `{ModeSolver} (params : Params)
      (width thickness length gap : Q) (num_modes : nat) : result Geometry :=
    input ←
      WaveguideChannels.__init__ params width thickness length num_modes gap 2 [1%nat];
    coupler ←
      WaveguideChannels.__init__ params width thickness length num_modes gap 2 [];
    Ok (input ++ coupler).
End DirectionalCoupler.


(** ** [class DynamicPolygon] and [class DynamicRect2D] *)

Module DynamicRect2D.
Import EMpyGeometryParameters.

Section Class.
Context `{ModeSolver} `{Shapely} `{Trig}.

(** The attributes of an instance.  [layers] is the attribute that
    [Geometry.__init__] assigns and [Geometry.__iter__] reads; it is [None]
    while no assignment to it has run. *)
Record t : Type := {
  layers : option Geometry;
  params : Params;
  symmetry : bool;
  subpixel : bool;
  width : Q;
  length : Q;
  grid_x : list Q;
  grid_z : list Q;
  static_vertices_left : list (Q * Q);
  static_vertices_right : list (Q * Q);
  design : list Q
}.

(** [self.design = design] *)
Definition assign_design (self : t) (design' : list Q) : t :=
  {| layers := layers self;
     params := params self;
     symmetry := symmetry self;
     subpixel := subpixel self;
     width := width self;
     length := length self;
     grid_x := grid_x self;
     grid_z := grid_z self;
     static_vertices_left := static_vertices_left self;
     static_vertices_right := static_vertices_right self;
     design := design' |}.

(** [Geometry.__iter__] *)
Definition __iter__ (self : t) : result Geometry :=
  match layers self with
  | Some l => Ok l
  | None => Raise AttributeError
  end.

(** [DynamicPolygon.get_design] *)
Definition get_design (self : t) : list Q := design self.

(** [zip(top[:-1:2], top[1::2])] *)
Definition pairs (top : list Q) : list (Q * Q) :=
  pyzip (step_2 (but_last top)) (step_2 (from_1 top)).

(** The first half of [get_n], under [# Create vertices]: the value of the
    local variable [vertices] when the comment [# Form polygon] is
    reached. *)
Definition vertices (self : t) : list (Q * Q) :=
  let vertices := [] in
  let vertices := vertices ++ static_vertices_left self in
  let top :=
    if symmetry self then design self
    else take (List.length (design self) / 2) (design self) in
  let vertices := vertices ++ map (fun '(x, z) => (x, z)) (pairs top) in
  let vertices := vertices ++ static_vertices_right self in
  let bottom :=
    if symmetry self then design self
    else drop (List.length (design self) / 2) (design self) in
  if symmetry self then
    vertices ++ map (fun '(x, z) => (- x, z)) (reverse (pairs bottom))
  else
    vertices ++ map (fun '(x, z) => (x, z)) (pairs bottom).

(** [a * b] where [b] may be [None] *)
Definition mul (a : Q) (b : option Q) : result Q :=
  match b with
  | Some b => Ok (a * b)
  | None => Raise TypeError
  end.

(** The body of the two nested loops of [get_n], up to the value assigned
    to [n[j, i]].  A [None] assigned to an entry of a float array is stored
    by numpy as nan; the entry is then [None] here as well. *)
Definition effective_index (self : t) (polygon : geometry)
    (xp zp : Q * Q) : result (option Q) :=
  let '(xl, xu) := xp in
  let '(zl, zu) := zp in
  let total_area := (xu - xl) * (zu - zl) in
  let pixel_poly := Polygon [(xl, zl); (xl, zu); (xu, zu); (xu, zl)] in
  let overlapping_area :=
    if intersects pixel_poly polygon
    then intersection_area pixel_poly polygon
    else 0 in
  if subpixel self then
    a ← mul (overlapping_area / total_area) (core_index (params self));
    b ← mul (1 - overlapping_area / total_area) (cladding_index (params self));
    Ok (Some (a + b))
  else if negb (Qeq_bool overlapping_area 0) then
    Ok (core_index (params self))
  else
    Ok (cladding_index (params self)).

(** [n[j, i] = v] *)
Definition assign2 (j i : nat) (v : option Q) (n : list (list (option Q)))
  : list (list (option Q)) :=
  alter (fun row => <[i := v]> row) j n.

(** The second half of [get_n], from [# Form grid] on, for the value
    [polygon] of the local variable of that name. *)
Definition rasterize (self : t) (polygon : geometry)
  : result (list (list (option Q))) :=
  let '(x, z) := (grid_x self, grid_z self) in
  let xx_shape := (List.length z, List.length x) in
  let n := map but_last (but_last (np.zeros2 (fst xx_shape) (snd xx_shape))) in
  let '(xlower, xupper) := (but_last x, from_1 x) in
  let '(zlower, zupper) := (but_last z, from_1 z) in
  for_ (enumerate (pyzip xlower xupper))
    (fun '(i, xp) n =>
       for_ (enumerate (pyzip zlower zupper))
         (fun '(j, zp) n =>
            v ← effective_index self polygon xp zp;
            Ok (assign2 j i v n))
         n)
    n.

Definition get_n (self : t) : result (list (list (option Q))) :=
  let vertices := vertices self in
  (* polygon = Polygon(vertices) *)
  let polygon := buffer (Point 0 (length self / 2)) (width self / 2) in
  rasterize self polygon.

(** Follows the spec's words, to be compared with [get_n]: the index map
    of the polygon assembled from the static and dynamic vertices. *)
Definition get_n_of_vertices (self : t) : result (list (list (option Q))) :=
  rasterize self (Polygon (vertices self)).

Definition set_layers (self : t) : result (list (list (option Q))) :=
  n ← get_n self;
  Ok n.

(** [set_design] assigns the attribute and then calls [set_layers]; the
    assignment stays when the call raises. *)
Definition set_design (self : t) (design' : list Q)
  : t * result (list (list (option Q))) :=
  let self := assign_design self design' in
  (self, set_layers self).

(** The design [__init__] starts from. *)
Definition initial_design (width length : Q) (num_params : nat)
    (symmetry : bool) : list Q :=
  let z := but_last (from_1 (np.linspace 0 length (num_params + 2))) in
  let x :=
    zip_with Qplus (replicate num_params (width / 2))
      (map (fun zk => sin (zk / length * pi) * width / 2) z) in
  let dynamic_vertices_top := pyzip x z in
  let x := replicate num_params (- width / 2) in
  let z := reverse (but_last (from_1 (np.linspace 0 length (num_params + 2)))) in
  let dynamic_vertices_bottom := pyzip x z in
  let design :=
    if symmetry then dynamic_vertices_top
    else dynamic_vertices_top ++ dynamic_vertices_bottom in
  flatten_pairs design.

(** [params.x], or the grid derived from the cladding width and the mesh
    count when it is [None]. *)
Definition grid_x_of (params : Params) : list Q :=
  match x params with
  | Some px => px
  | None =>
      np.linspace (- cladding_width params / 2)
        (cladding_width params / 2) (mesh params)
  end.

(** [__init__]: when [set_design] raises, so does the constructor and no
    instance exists.  [design] is first assigned by [set_design].  The
    counts [num_params] and [mesh_z] are naturals here; [__init__int]
    below takes them as ints. *)
Definition __init__ (params : Params) (width length : Q) (num_params : nat)
    (symmetry subpixel : bool) (mesh_z : nat) : result t :=
  let self :=
    {| layers := None;
       params := params;
       symmetry := symmetry;
       subpixel := subpixel;
       width := width;
       length := length;
       grid_x := grid_x_of params;
       grid_z := np.linspace 0 length mesh_z;
       static_vertices_left := pyzip [- width / 2; width / 2] [0; 0];
       static_vertices_right := pyzip [width / 2; - width / 2] [length; length];
       design := [] |} in
  let design := initial_design width length num_params symmetry in
  let '(self, r) := set_design self design in
  _ ← r;
  Ok self.

(** [__init__] with [num_params] and [mesh_z] as the Python ints they
    are: [np.linspace] raises for a negative count, and [[a] * k] is empty
    for a negative [k].  The statements are in the order of the source. *)
Definition __init__int (params : Params) (width length : Q) (num_params : Z)
    (symmetry subpixel : bool) (mesh_z : Z) : result t :=
  let grid_x := grid_x_of params in
  grid_z ← np.linspace_int 0 length mesh_z;
  let static_vertices_left := pyzip [- width / 2; width / 2] [0; 0] in
  z ← np.linspace_int 0 length (num_params + 2);
  let z := but_last (from_1 z) in
  let x :=
    zip_with Qplus (replicate (Z.to_nat num_params) (width / 2))
      (map (fun zk => sin (zk / length * pi) * width / 2) z) in
  let dynamic_vertices_top := pyzip x z in
  let static_vertices_right :=
    pyzip [width / 2; - width / 2] [length; length] in
  let x := replicate (Z.to_nat num_params) (- width / 2) in
  z ← np.linspace_int 0 length (num_params + 2);
  let z := reverse (but_last (from_1 z)) in
  let dynamic_vertices_bottom := pyzip x z in
  let design :=
    if symmetry then dynamic_vertices_top
    else dynamic_vertices_top ++ dynamic_vertices_bottom in
  let design := flatten_pairs design in
  let self :=
    {| layers := None;
       params := params;
       symmetry := symmetry;
       subpixel := subpixel;
       width := width;
       length := length;
       grid_x := grid_x;
       grid_z := grid_z;
       static_vertices_left := static_vertices_left;
       static_vertices_right := static_vertices_right;
       design := [] |} in
  let '(self, r) := set_design self design in
  _ ← r;
  Ok self.

(** The instances a program can hold: built by [__init__] from the given
    arguments, then given any number of designs by [set_design]. *)
Inductive built (params0 : Params) (width0 length0 : Q)
    (symmetry0 subpixel0 : bool) (mesh_z : nat) : t -> Prop :=
  | built_init (num_params : nat) (self : t) :
      __init__ params0 width0 length0 num_params symmetry0 subpixel0 mesh_z
        = Ok self ->
      built params0 width0 length0 symmetry0 subpixel0 mesh_z self
  | built_set_design (self : t) (design' : list Q) :
      built params0 width0 length0 symmetry0 subpixel0 mesh_z self ->
      built params0 width0 length0 symmetry0 subpixel0 mesh_z
        (fst (set_design self design')).

(** The cells of a grid: [zip(g[:-1], g[1:])]. *)
Definition cells (g : list Q) : list (Q * Q) :=
  pyzip (but_last g) (from_1 g).

(** An array of [k] rows of [m] entries. *)
Definition has_shape (k m : nat) (n : list (list (option Q))) : Prop :=
  List.length n = k /\ Forall (fun row => List.length row = m) n.

(** Entry [[j, i]] of a returned array is the number [v]. *)
Definition entry_is (r : result (list (list (option Q)))) (j i : nat) (v : Q)
  : Prop :=
  match r with
  | Ok n =>
      match n !! j with
      | Some row =>
          match row !! i with
          | Some (Some q) => q == v
          | _ => False
          end
      | None => False
      end
  | Raise _ => False
  end.

(** The covered part of a cell, as a fraction of the cell. *)
Definition overlap (polygon : geometry) (xl xu zl zu : Q) : Q :=
  if intersects (pixel xl xu zl zu) polygon
  then intersection_area (pixel xl xu zl zu) polygon
  else 0.
Definition fraction (polygon : geometry) (xl xu zl zu : Q) : Q :=
  overlap polygon xl xu zl zu / ((xu - xl) * (zu - zl)).

(** The entry [effective_index] computes for a cell when both material
    indices are set. *)
Definition index_value (subpixel : bool) (core clad : Q) (polygon : geometry)
    (xp zp : Q * Q) : option Q :=
  let a := overlap polygon (fst xp) (snd xp) (fst zp) (snd zp) in
  let total_area := (snd xp - fst xp) * (snd zp - fst zp) in
  if subpixel then Some (a / total_area * core + (1 - a / total_area) * clad)
  else if negb (Qeq_bool a 0) then Some core
  else Some clad.

(** Follows the spec's words, to be compared with [effective_index]: the
    index of a cell from the covered fraction of the cell. *)
Definition spec_index (subpixel : bool) (core clad : Q) (fraction : Q) : Q :=
  if subpixel then fraction * core + (1 - fraction) * clad
  else if Qle_bool fraction 0 then clad
  else core.

(** A cell straddles the boundary of a shape when the shape covers a part
    of it and not all of it. *)
Definition straddles (polygon : geometry) (xl xu zl zu : Q) : Prop :=
  intersects (pixel xl xu zl zu) polygon = true /\
  0 < intersection_area (pixel xl xu zl zu) polygon /\
  intersection_area (pixel xl xu zl zu) polygon < (xu - xl) * (zu - zl).

End Class.

Arguments t {_}.
End DynamicRect2D.

(** ** Stand-ins for running the model

    A geometry engine that takes every shape for its bounding box, and a
    polynomial in place of the sine.  They serve to evaluate the model on
    concrete inputs; the theorems hold for every engine. *)

Definition qmin (a b : Q) : Q := if Qle_bool a b then a else b.
Definition qmax (a b : Q) : Q := if Qle_bool a b then b else a.

Record box : Type := { x_lo : Q; x_hi : Q; z_lo : Q; z_hi : Q }.

Definition box_add (b : box) (v : Q * Q) : box :=
  {| x_lo := qmin (x_lo b) (fst v); x_hi := qmax (x_hi b) (fst v);
     z_lo := qmin (z_lo b) (snd v); z_hi := qmax (z_hi b) (snd v) |}.

Fixpoint bbox (g : geometry) : option box :=
  match g with
  | Point x z => Some {| x_lo := x; x_hi := x; z_lo := z; z_hi := z |}
  | Polygon [] => None
  | Polygon (v :: vs) =>
      Some (fold_left box_add vs
              {| x_lo := fst v; x_hi := fst v; z_lo := snd v; z_hi := snd v |})
  | buffer g d =>
      match bbox g with
      | Some b =>
          Some {| x_lo := x_lo b - d; x_hi := x_hi b + d;
                  z_lo := z_lo b - d; z_hi := z_hi b + d |}
      | None => None
      end
  end.

(** The length of the part two intervals share. *)
Definition shared (lo1 hi1 lo2 hi2 : Q) : Q :=
  qmax 0 (qmin hi1 hi2 - qmax lo1 lo2).

Definition box_engine : Shapely :=
  {| intersects a b :=
       match bbox a, bbox b with
       | Some p, Some q =>
           Qle_bool (qmax (x_lo p) (x_lo q)) (qmin (x_hi p) (x_hi q))
           && Qle_bool (qmax (z_lo p) (z_lo q)) (qmin (z_hi p) (z_hi q))
       | _, _ => false
       end;
     intersection_area a b :=
       match bbox a, bbox b with
       | Some p, Some q =>
           shared (x_lo p) (x_hi p) (x_lo q) (x_hi q)
           * shared (z_lo p) (z_hi p) (z_lo q) (z_hi q)
       | _, _ => 0
       end |}.

Definition cubic_trig : Trig :=
  {| sin := fun t => t - t * t * t / 6;
     pi := 884279719003555 # 281474976710656 |}.

(** ** Concrete inputs *)

Section Examples.
#[local] Existing Instances spec_solver box_engine cubic_trig.
Import EMpyGeometryParameters.

(** [EMpyGeometryParameters(mesh=5, core_index=3.4, cladding_index=1.4)] *)
Definition example_params : Params :=
  with_mesh_indices 5 (Some 3.4) (Some 1.4).

(** [DynamicRect2D(example_params, 1e-6, 2.5e-6, num_params=2,
    symmetry=True, subpixel=True, mesh_z=5)], attribute by attribute. *)
Definition example_rect : DynamicRect2D.t :=
  {| DynamicRect2D.layers := None;
     DynamicRect2D.params := example_params;
     DynamicRect2D.symmetry := true;
     DynamicRect2D.subpixel := true;
     DynamicRect2D.width := 1e-6;
     DynamicRect2D.length := 2.5e-6;
     DynamicRect2D.grid_x := DynamicRect2D.grid_x_of example_params;
     DynamicRect2D.grid_z := np.linspace 0 2.5e-6 5;
     DynamicRect2D.static_vertices_left := [(- 1e-6 / 2, 0); (1e-6 / 2, 0)];
     DynamicRect2D.static_vertices_right :=
       [(1e-6 / 2, 2.5e-6); (- 1e-6 / 2, 2.5e-6)];
     DynamicRect2D.design := DynamicRect2D.initial_design 1e-6 2.5e-6 2 true |}.

(** [EMpyGeometryParameters(mesh=50, core_index=3.4, cladding_index=1.4)],
    the parameters of the end-to-end scenario. *)
Definition scenario_params : Params :=
  with_mesh_indices 50 (Some 3.4) (Some 1.4).

(** A design of three numbers, and one with a single top vertex. *)
Definition odd_design : list Q := [1e-6; 1.25e-6; 0.75e-6].
Definition kink_design : list Q := [1e-6; 1.25e-6].

(** Three channels of width 1 that overlap by a half: [gap = -0.5]. *)
Definition overlap_params : Params :=
  with_x (with_mesh_indices 2 (Some 3.4) (Some 1.4)) (Some [-0.25; 0.25]).

(** [DynamicRect2D(example_params, 1e-6, 2.5e-6, num_params=2,
    symmetry=False, subpixel=True, mesh_z=5)] after
    [set_design(free_design)]: one vertex on each side. *)
Definition free_design : list Q := [1e-6; 1.25e-6; -0.75e-6; 1.25e-6].

Definition example_free : DynamicRect2D.t :=
  {| DynamicRect2D.layers := None;
     DynamicRect2D.params := example_params;
     DynamicRect2D.symmetry := false;
     DynamicRect2D.subpixel := true;
     DynamicRect2D.width := 1e-6;
     DynamicRect2D.length := 2.5e-6;
     DynamicRect2D.grid_x := DynamicRect2D.grid_x_of example_params;
     DynamicRect2D.grid_z := np.linspace 0 2.5e-6 5;
     DynamicRect2D.static_vertices_left := [(- 1e-6 / 2, 0); (1e-6 / 2, 0)];
     DynamicRect2D.static_vertices_right :=
       [(1e-6 / 2, 2.5e-6); (- 1e-6 / 2, 2.5e-6)];
     DynamicRect2D.design := free_design |}.

(** [DynamicRect2D(EMpyGeometryParameters(mesh=5), 1e-6, 2.5e-6,
    num_params=2, symmetry=True, subpixel=False, mesh_z=5)]: no material
    index is set. *)
Definition example_staircase : DynamicRect2D.t :=
  {| DynamicRect2D.layers := None;
     DynamicRect2D.params := with_mesh_indices 5 None None;
     DynamicRect2D.symmetry := true;
     DynamicRect2D.subpixel := false;
     DynamicRect2D.width := 1e-6;
     DynamicRect2D.length := 2.5e-6;
     DynamicRect2D.grid_x :=
       DynamicRect2D.grid_x_of (with_mesh_indices 5 None None);
     DynamicRect2D.grid_z := np.linspace 0 2.5e-6 5;
     DynamicRect2D.static_vertices_left := [(- 1e-6 / 2, 0); (1e-6 / 2, 0)];
     DynamicRect2D.static_vertices_right :=
       [(1e-6 / 2, 2.5e-6); (- 1e-6 / 2, 2.5e-6)];
     DynamicRect2D.design := DynamicRect2D.initial_design 1e-6 2.5e-6 2 true |}.

(** Widths and samples that are no binary fractions: the floats that the
    literals [0.2], [0.1] and [1e-30] denote, and the parameters with
    [x = np.array([-0.2, 0.2])] and with [x = np.array([-0.5, 0.5])]. *)
Definition f0_2 : Q := binary64.round 0.2.
Definition f0_1 : Q := binary64.round 0.1.
Definition f1e_30 : Q := binary64.round 1e-30.
Definition fifths_params : Params :=
  with_x (with_mesh_indices 2 (Some 3.4) (Some 1.4)) (Some [- f0_2; f0_2]).
Definition halves_params : Params :=
  with_x (with_mesh_indices 2 (Some 3.4) (Some 1.4)) (Some [-0.5; 0.5]).


End Examples.

(** * Properties *)

(** Linear arithmetic over [Q] with halves. *)
Ltac qlra := unfold Qdiv in *; change (/ 2) with (1 # 2) in *; lra.

Ltac in_loop := rewrite ?elem_of_app, ?elem_of_cons; naive_solver.

(** ** Loops and sequences *)

Lemma for_raises {A S : Type} (P : exn -> Prop) (body : A -> S -> result S) :
  (forall a s e, body a s = Raise e -> P e) ->
  forall l s e, for_ l body s = Raise e -> P e.
Proof.
  intros Hbody l. induction l as [|a l IH]; intros s e; simpl.
  - discriminate.
  - destruct (body a s) as [s'|e'] eqn:Hb; simpl.
    + apply IH.
    + intros [= <-]. eapply Hbody, Hb.
Qed.

Lemma for_ext {A S : Type} (body1 body2 : A -> S -> result S) (l : list A) :
  (forall a s, body1 a s = body2 a s) ->
  forall s, for_ l body1 s = for_ l body2 s.
Proof.
  intros Hext. induction l as [|a l IH]; intros s; simpl; [reflexivity|].
  rewrite Hext. destruct (body2 a s); simpl; [apply IH | reflexivity].
Qed.

Lemma for_inv {A S : Type} (I : S -> Prop) (body : A -> S -> result S) :
  (forall a s s', I s -> body a s = Ok s' -> I s') ->
  forall l s s', I s -> for_ l body s = Ok s' -> I s'.
Proof.
  intros Hbody l. induction l as [|a l IH]; intros s s' Hs; simpl.
  - intros [= <-]. exact Hs.
  - destruct (body a s) as [s1|e] eqn:Hb; simpl; [|discriminate].
    apply IH. eapply Hbody; eassumption.
Qed.

Lemma bind_Ok_inv {A : Type} (m : result A) (a : A) :
  m ≫= (fun s => Ok s) = Ok a -> m = Ok a.
Proof. destruct m; simpl; congruence. Qed.

Lemma map_pair_id {A B : Type} (l : list (A * B)) :
  map (fun '(x, z) => (x, z)) l = l.
Proof. induction l as [|[a b] l IH]; simpl; [reflexivity|]. rewrite IH. reflexivity. Qed.

Lemma Qmult_1_l_eq (q : Q) : 1 * q = q.
Proof. destruct q as [a b]. unfold Qmult. simpl. destruct a; reflexivity. Qed.

Lemma length_but_last {A : Type} (l : list A) :
  length (but_last l) = (length l - 1)%nat.
Proof. unfold but_last. rewrite length_take. lia. Qed.

Lemma length_from_1 {A : Type} (l : list A) :
  length (from_1 l) = (length l - 1)%nat.
Proof. unfold from_1. rewrite length_drop. lia. Qed.

Lemma but_last_replicate {A : Type} (k : nat) (a : A) :
  but_last (replicate k a) = replicate (k - 1) a.
Proof.
  unfold but_last. rewrite length_replicate, take_replicate.
  f_equal. lia.
Qed.

Lemma but_last_snoc {A : Type} (l : list A) (a : A) :
  but_last (l ++ [a]) = l.
Proof.
  unfold but_last. rewrite length_app. simpl.
  replace (length l + 1 - 1)%nat with (length l) by lia.
  apply take_app_length.
Qed.

Lemma lookup_but_last {A : Type} (l : list A) (i : nat) (a : A) :
  but_last l !! i = Some a <-> l !! i = Some a /\ (S i < length l)%nat.
Proof.
  unfold but_last. rewrite lookup_take_Some. intuition lia.
Qed.

Lemma lookup_from_1 {A : Type} (l : list A) (i : nat) :
  from_1 l !! i = l !! S i.
Proof. unfold from_1. rewrite lookup_drop. reflexivity. Qed.

Lemma length_cells (g : list Q) :
  length (DynamicRect2D.cells g) = (length g - 1)%nat.
Proof.
  unfold DynamicRect2D.cells, pyzip.
  rewrite length_zip, length_but_last, length_from_1. lia.
Qed.

Lemma lookup_cells (g : list Q) (i : nat) (lo hi : Q) :
  DynamicRect2D.cells g !! i = Some (lo, hi) <->
  g !! i = Some lo /\ g !! S i = Some hi.
Proof.
  unfold DynamicRect2D.cells, pyzip. rewrite lookup_zip_Some. simpl.
  rewrite lookup_but_last, lookup_from_1. split.
  - intros [[? ?] ?]. done.
  - intros [? Hhi]. split; [split|]; try done.
    apply lookup_lt_Some in Hhi. done.
Qed.

(** ** [np.linspace] *)

Lemma inject_nat_S (k : nat) :
  inject_Z (Z.of_nat (S k)) == inject_Z (Z.of_nat k) + 1.
Proof. rewrite Nat2Z.inj_succ. unfold Z.succ. rewrite inject_Z_plus. reflexivity. Qed.

Lemma inject_nat_nonneg (k : nat) : 0 <= inject_Z (Z.of_nat k).
Proof. change 0 with (inject_Z 0). rewrite <- Zle_Qle. lia. Qed.

Lemma length_linspace (start stop : Q) (num : nat) :
  length (np.linspace start stop num) = num.
Proof.
  unfold np.linspace. destruct num as [|[|d]]; simpl; try reflexivity.
  rewrite length_app, length_map, length_seq. simpl. lia.
Qed.

Lemma linspace_increasing (start stop : Q) (num i : nat) (a b : Q) :
  start < stop ->
  np.linspace start stop num !! i = Some a ->
  np.linspace start stop num !! S i = Some b ->
  a < b.
Proof.
  intros Hlt. unfold np.linspace.
  destruct num as [|[|d]]; [done|done|].
  set (D := inject_Z (Z.of_nat (S d))).
  set (step := (stop - start) / D).
  assert (HD : 0 < D).
  { unfold D. rewrite inject_nat_S. pose proof (inject_nat_nonneg d). lra. }
  assert (Hstep : step * D == stop - start).
  { unfold step. field. lra. }
  assert (Hpos : 0 < step).
  { unfold step. apply Qlt_shift_div_l; lra. }
  intros Ha Hb.
  destruct (decide (S i < S d)%nat) as [Hin|Hout].
  - rewrite lookup_app_l in Ha by (rewrite length_map, length_seq; lia).
    rewrite lookup_app_l in Hb by (rewrite length_map, length_seq; lia).
    rewrite list_lookup_fmap, lookup_seq_lt in Ha by lia.
    rewrite list_lookup_fmap, lookup_seq_lt in Hb by lia.
    simpl in Ha, Hb. injection Ha as <-. injection Hb as <-.
    rewrite inject_nat_S. nra.
  - assert (i = d) as ->.
    { apply lookup_lt_Some in Hb. rewrite length_app, length_map, length_seq in Hb.
      simpl in Hb. lia. }
    rewrite lookup_app_l in Ha by (rewrite length_map, length_seq; lia).
    rewrite list_lookup_fmap, lookup_seq_lt in Ha by lia.
    rewrite lookup_app_r in Hb by (rewrite length_map, length_seq; lia).
    rewrite length_map, length_seq, Nat.sub_diag in Hb.
    simpl in Ha, Hb. injection Ha as <-. injection Hb as <-.
    unfold D in Hstep. rewrite inject_nat_S in Hstep. nra.
Qed.

(** ** Broadcasting *)

Lemma broadcast_at_lookup {A : Type} (l : list A) (i : nat) (a : A) :
  l !! i = Some a -> np.broadcast_at l i = Some a.
Proof.
  destruct l as [|b [|c l]]; simpl; try done.
  destruct i; simpl; [done|]. discriminate.
Qed.

Lemma broadcast_at_map {A B : Type} (g : A -> B) (l : list A) (i : nat) :
  np.broadcast_at (map g l) i = g <$> np.broadcast_at l i.
Proof.
  destruct l as [|b [|c l]]; simpl; try done.
  destruct i as [|i]; simpl; [done|].
  destruct i; simpl; [done|]. apply list_lookup_fmap.
Qed.

Lemma broadcast_at_replicate {A : Type} (k i : nat) (a b : A) :
  np.broadcast_at (replicate k a) i = Some b -> b = a.
Proof.
  destruct k as [|[|k]]; simpl; try congruence.
  - destruct i; discriminate.
  - destruct i as [|[|i]]; simpl; try congruence.
    intros Hl. apply lookup_replicate in Hl. tauto.
Qed.

Lemma broadcast2_at {A B C : Type} (f : A -> B -> C) xs ys r i c :
  np.broadcast2 f xs ys = Ok r ->
  np.broadcast_at r i = Some c ->
  exists a b, np.broadcast_at xs i = Some a /\ np.broadcast_at ys i = Some b
              /\ c = f a b.
Proof.
  unfold np.broadcast2.
  destruct xs as [|a [|a' xs]].
  - destruct ys as [|b [|b' ys]]; simpl; intros [= <-]; simpl; discriminate.
  - intros [= <-]. rewrite broadcast_at_map.
    destruct (np.broadcast_at ys i) as [b|]; simpl; [|discriminate].
    intros [= <-]. eauto.
  - destruct ys as [|b [|b' ys]].
    + simpl. discriminate.
    + intros [= <-].
      change (f a b :: f a' b :: map (fun a0 => f a0 b) xs)
        with (map (fun a0 => f a0 b) (a :: a' :: xs)).
      rewrite broadcast_at_map.
      destruct (np.broadcast_at (a :: a' :: xs) i) as [a0|]; simpl;
        [|discriminate].
      intros [= <-]. eauto.
    + destruct (Nat.eqb _ _); [|discriminate].
      intros [= <-]. simpl.
      destruct i as [|[|i]]; simpl.
      * intros [= <-]. eauto.
      * intros [= <-]. eauto.
      * intros Hl. apply lookup_zip_with_Some in Hl as (a0 & b0 & -> & ? & ?).
        eauto.
Qed.

Lemma where_at {A : Type} (cond : list bool) (v : A) (a r : list A) i c :
  np.where_ cond v a = Ok r ->
  np.broadcast_at r i = Some c ->
  exists cb old, np.broadcast_at cond i = Some cb /\ np.broadcast_at a i = Some old
                 /\ c = if cb then v else old.
Proof. unfold np.where_. apply broadcast2_at. Qed.

Lemma in_channel_at xs l r i cb :
  np.broadcast_at (map (fun xi => Qle_bool l xi && Qle_bool xi r) xs) i = Some cb ->
  exists xi, np.broadcast_at xs i = Some xi /\
             (cb = true <-> l <= xi /\ xi <= r).
Proof.
  rewrite broadcast_at_map.
  destruct (np.broadcast_at xs i) as [xi|]; simpl; [|discriminate].
  intros [= <-]. exists xi. split; [reflexivity|].
  rewrite andb_true_iff, !Qle_bool_iff. reflexivity.
Qed.

(** ** The two nested loops of the rasterizer *)

Section Loops.
Context {A B C : Type} (cell : A -> B -> result C) (f : A -> B -> C).
Hypothesis cell_ok : forall xp zp, cell xp zp = Ok (f xp zp).

(** One run of the inner loop writes column [i] of every row. *)
Lemma inner_loop (i : nat) (xp : A) (g : B -> list C) (zs : list B) :
  forall (j0 : nat) (done : list (list C)),
    length done = j0 ->
    for_ (enumerate_from j0 zs)
      (fun '(j, zp) n =>
         v ← cell xp zp; Ok (alter (fun row => <[i := v]> row) j n))
      (done ++ map g zs)
    = Ok (done ++ map (fun zp => <[i := f xp zp]> (g zp)) zs).
Proof.
  induction zs as [|zp zs IH]; intros j0 done Hlen; simpl.
  - reflexivity.
  - rewrite cell_ok. simpl.
    subst j0. rewrite alter_app_r_alt by lia.
    rewrite Nat.sub_diag. simpl.
    rewrite (cons_middle _ done), app_assoc.
    rewrite (IH (S (length done))).
    + rewrite <- app_assoc. reflexivity.
    + rewrite length_app. simpl. lia.
Qed.

Lemma inner_loop_all (i : nat) (xp : A) (g : B -> list C) (zs : list B) :
  for_ (enumerate zs)
    (fun '(j, zp) n =>
       v ← cell xp zp; Ok (alter (fun row => <[i := v]> row) j n))
    (map g zs)
  = Ok (map (fun zp => <[i := f xp zp]> (g zp)) zs).
Proof. apply (inner_loop i xp g zs 0 []). reflexivity. Qed.

(** The outer loop fills the rows column by column. *)
Lemma outer_loop (d : C) (zs : list B) (xs : list A) :
  forall (i0 : nat) (pre : B -> list C),
    (forall zp, length (pre zp) = i0) ->
    for_ (enumerate_from i0 xs)
      (fun '(i, xp) n =>
         for_ (enumerate zs)
           (fun '(j, zp) n =>
              v ← cell xp zp; Ok (alter (fun row => <[i := v]> row) j n))
           n)
      (map (fun zp => pre zp ++ replicate (length xs) d) zs)
    = Ok (map (fun zp => pre zp ++ map (fun xp => f xp zp) xs) zs).
Proof.
  induction xs as [|xp xs IH]; intros i0 pre Hpre; simpl.
  - reflexivity.
  - rewrite inner_loop_all. simpl.
    assert (Hstep :
      map (fun zp => <[i0 := f xp zp]> (pre zp ++ d :: replicate (length xs) d)) zs
      = map (fun zp => (pre zp ++ [f xp zp]) ++ replicate (length xs) d) zs).
    { apply map_ext. intros zp.
      rewrite insert_app_r_alt by (rewrite Hpre; lia).
      rewrite Hpre, Nat.sub_diag, <- app_assoc. reflexivity. }
    rewrite Hstep.
    rewrite (IH (S i0) (fun zp => pre zp ++ [f xp zp])).
    + f_equal. apply map_ext. intros zp.
      rewrite <- app_assoc. reflexivity.
    + intros zp. rewrite length_app, Hpre. simpl. lia.
Qed.

Lemma loops_table (d : C) (xs : list A) (zs : list B) :
  for_ (enumerate xs)
    (fun '(i, xp) n =>
       for_ (enumerate zs)
         (fun '(j, zp) n =>
            v ← cell xp zp; Ok (alter (fun row => <[i := v]> row) j n))
         n)
    (replicate (length zs) (replicate (length xs) d))
  = Ok (map (fun zp => map (fun xp => f xp zp) xs) zs).
Proof.
  unfold enumerate at 1.
  replace (replicate (length zs) (replicate (length xs) d))
    with (map (fun _ : B => [] ++ replicate (length xs) d) zs).
  - apply (outer_loop d zs xs 0 (fun _ => [])). reflexivity.
  - simpl. induction zs as [|zp zs IH]; simpl; [reflexivity|].
    f_equal. apply IH.
Qed.

End Loops.

(** ** The index map of [DynamicRect2D] *)

Section Rasterizer.
Context `{ModeSolver} `{Shapely} `{Trig}.
Import EMpyGeometryParameters DynamicRect2D.

Lemma effective_index_set (self : t) (polygon : geometry) (core clad : Q)
    (xp zp : Q * Q) :
  core_index (params self) = Some core ->
  cladding_index (params self) = Some clad ->
  effective_index self polygon xp zp
  = Ok (index_value (subpixel self) core clad polygon xp zp).
Proof.
  intros Hcore Hclad. destruct xp as [xl xu], zp as [zl zu].
  unfold effective_index, index_value, overlap, pixel. simpl.
  rewrite Hcore, Hclad.
  destruct (subpixel self); simpl; [reflexivity|].
  destruct (negb _); reflexivity.
Qed.

(** Without subpixel smoothing nothing is multiplied, and the loop body
    cannot raise. *)
Lemma effective_index_staircase (self : t) (polygon : geometry)
    (xp zp : Q * Q) :
  subpixel self = false ->
  effective_index self polygon xp zp
  = Ok (if negb (Qeq_bool
                   (overlap polygon (fst xp) (snd xp) (fst zp) (snd zp)) 0)
        then core_index (params self) else cladding_index (params self)).
Proof.
  intros Hsub. destruct xp as [xl xu], zp as [zl zu].
  unfold effective_index, overlap, pixel. simpl. rewrite Hsub.
  destruct (negb _); reflexivity.
Qed.

Lemma effective_index_raises (self : t) (polygon : geometry) (xp zp : Q * Q)
    (e : exn) :
  effective_index self polygon xp zp = Raise e ->
  e = TypeError /\ subpixel self = true /\
  (core_index (params self) = None \/ cladding_index (params self) = None).
Proof.
  destruct xp as [xl xu], zp as [zl zu]. unfold effective_index.
  destruct (subpixel self).
  - destruct (core_index (params self)), (cladding_index (params self));
      simpl; intros [= <-] || discriminate; auto.
  - destruct (negb _); discriminate.
Qed.

Lemma rasterize_table (self : t) (polygon : geometry)
    (f : Q * Q -> Q * Q -> option Q) :
  (forall xp zp, effective_index self polygon xp zp = Ok (f xp zp)) ->
  rasterize self polygon
  = Ok (map (fun zp => map (fun xp => f xp zp) (cells (grid_x self)))
          (cells (grid_z self))).
Proof.
  intros Hcell. unfold rasterize, np.zeros2. simpl.
  rewrite but_last_replicate.
  assert (Hrows :
    map but_last
      (replicate (List.length (grid_z self) - 1)
         (replicate (List.length (grid_x self)) (Some 0)))
    = replicate (List.length (cells (grid_z self)))
        (replicate (List.length (cells (grid_x self))) (Some 0))).
  { rewrite !length_cells.
    induction (List.length (grid_z self) - 1)%nat as [|k IH]; simpl.
    - reflexivity.
    - rewrite but_last_replicate, IH. reflexivity. }
  rewrite Hrows.
  apply (loops_table (effective_index self polygon) f Hcell (Some 0)).
Qed.

Lemma rasterize_raises (self : t) (polygon : geometry) (e : exn) :
  rasterize self polygon = Raise e ->
  e = TypeError /\ subpixel self = true /\
  (core_index (params self) = None \/ cladding_index (params self) = None).
Proof.
  unfold rasterize. simpl.
  set (P := fun e : exn =>
    e = TypeError /\ subpixel self = true /\
    (core_index (params self) = None \/ cladding_index (params self) = None)).
  revert e. apply (for_raises P). intros [i xp] n.
  apply (for_raises P). intros [j zp] n' e''.
  destruct (effective_index self polygon xp zp) as [v|e3] eqn:Hv; simpl.
  - discriminate.
  - intros [= <-]. eapply effective_index_raises, Hv.
Qed.

Lemma get_n_set (self : t) core clad :
  core_index (params self) = Some core ->
  cladding_index (params self) = Some clad ->
  get_n self
  = Ok (map (fun zp =>
              map (fun xp =>
                     index_value (subpixel self) core clad
                       (buffer (Point 0 (length self / 2)) (width self / 2))
                       xp zp)
                (cells (grid_x self)))
          (cells (grid_z self))).
Proof.
  intros Hc Hd. unfold get_n. simpl.
  apply rasterize_table. intros xp zp.
  apply effective_index_set; assumption.
Qed.

End Rasterizer.

(** ** The bounding-box engine obeys the laws *)

Lemma Qle_bool_false (a b : Q) : Qle_bool a b = false -> b < a.
Proof.
  intros E. apply Qnot_le_lt. intros Hle.
  apply Qle_bool_iff in Hle. congruence.
Qed.

Ltac qle_cases :=
  repeat match goal with
  | |- context [Qle_bool ?a ?b] =>
      let E := fresh "E" in
      destruct (Qle_bool a b) eqn:E;
      [apply Qle_bool_iff in E | apply Qle_bool_false in E]
  end.

Lemma shared_range (lo1 hi1 lo2 hi2 : Q) :
  lo1 <= hi1 ->
  0 <= shared lo1 hi1 lo2 hi2 /\ shared lo1 hi1 lo2 hi2 <= hi1 - lo1.
Proof.
  intros Hle. unfold shared, qmax, qmin. qle_cases; split; lra.
Qed.

Lemma qmin_l (a b : Q) : a <= b -> qmin a b = a.
Proof. intros. unfold qmin. qle_cases; [reflexivity | exfalso; lra]. Qed.
Lemma qmax_r (a b : Q) : a <= b -> qmax a b = b.
Proof. intros. unfold qmax. qle_cases; [reflexivity | exfalso; lra]. Qed.
Lemma qmax_l (a b : Q) : b < a -> qmax a b = a.
Proof. intros. unfold qmax. qle_cases; [exfalso; lra | reflexivity]. Qed.

Lemma bbox_pixel (xl xu zl zu : Q) :
  xl < xu -> zl < zu ->
  bbox (pixel xl xu zl zu)
  = Some {| x_lo := xl; x_hi := xu; z_lo := zl; z_hi := zu |}.
Proof.
  intros Hx Hz. unfold pixel, bbox, box_add. simpl.
  repeat rewrite (qmin_l xl) by lra.
  repeat rewrite (qmin_l zl) by lra.
  repeat rewrite (qmax_r xl) by lra.
  rewrite (qmax_r xu xu), (qmax_r zl zu), (qmax_r zu zu), (qmax_l zu zl) by lra.
  reflexivity.
Qed.

Lemma box_engine_laws : ShapelyLaws box_engine.
Proof.
  split; intros xl xu zl zu g Hx Hz; unfold intersection_area, box_engine;
    rewrite bbox_pixel by assumption; destruct (bbox g) as [q|]; simpl.
  - destruct (shared_range xl xu (x_lo q) (x_hi q)) as [? ?]; [lra|].
    destruct (shared_range zl zu (z_lo q) (z_hi q)) as [? ?]; [lra|].
    apply Qmult_le_0_compat; assumption.
  - lra.
  - destruct (shared_range xl xu (x_lo q) (x_hi q)) as [? ?]; [lra|].
    destruct (shared_range zl zu (z_lo q) (z_hi q)) as [? ?]; [lra|].
    nra.
  - pose proof (Qmult_lt_0_compat (xu - xl) (zu - zl)). lra.
Qed.

(** ** Instances of [DynamicRect2D] *)

Section Instances.
Context `{ModeSolver} `{Shapely} `{Trig}.
Import EMpyGeometryParameters DynamicRect2D.

Lemma init_inv p w L np sym sub mz self :
  __init__ p w L np sym sub mz = Ok self ->
  self = {| layers := None; params := p; symmetry := sym; subpixel := sub;
            width := w; length := L;
            grid_x := grid_x_of p;
            grid_z := np.linspace 0 L mz;
            static_vertices_left := [(- w / 2, 0); (w / 2, 0)];
            static_vertices_right := [(w / 2, L); (- w / 2, L)];
            design := initial_design w L np sym |}.
Proof.
  unfold __init__, set_design. simpl.
  destruct (set_layers _) as [n|e]; simpl; [|discriminate].
  intros [= <-]. reflexivity.
Qed.
Lemma built_inv p w L sym sub mz self :
  built p w L sym sub mz self ->
  layers self = None /\ params self = p /\ symmetry self = sym /\
  subpixel self = sub /\ width self = w /\ length self = L /\
  grid_x self = grid_x_of p /\ grid_z self = np.linspace 0 L mz /\
  static_vertices_left self = [(- w / 2, 0); (w / 2, 0)] /\
  static_vertices_right self = [(w / 2, L); (- w / 2, L)].
Proof.
  induction 1 as [np self Hinit|self d Hb IH].
  - apply init_inv in Hinit. subst self. simpl. repeat split.
  - exact IH.
Qed.
Lemma effective_index_fields (self1 self2 : t) polygon xp zp :
  subpixel self1 = subpixel self2 ->
  core_index (params self1) = core_index (params self2) ->
  cladding_index (params self1) = cladding_index (params self2) ->
  effective_index self1 polygon xp zp = effective_index self2 polygon xp zp.
Proof.
  intros Hs Hc Hd. destruct xp, zp. unfold effective_index.
  rewrite Hs, Hc, Hd. reflexivity.
Qed.

Lemma rasterize_fields (self1 self2 : t) polygon :
  grid_x self1 = grid_x self2 -> grid_z self1 = grid_z self2 ->
  subpixel self1 = subpixel self2 ->
  core_index (params self1) = core_index (params self2) ->
  cladding_index (params self1) = cladding_index (params self2) ->
  rasterize self1 polygon = rasterize self2 polygon.
Proof.
  intros Hx Hz Hs Hc Hd. unfold rasterize. simpl. rewrite Hx, Hz.
  apply for_ext. intros [i xp] n.
  apply for_ext. intros [j zp] n'.
  rewrite (effective_index_fields self1 self2) by assumption. reflexivity.
Qed.

Lemma set_design_returns_get_n (self : t) (d : list Q) :
  snd (set_design self d) = get_n (fst (set_design self d)).
Proof.
  unfold set_design, set_layers. simpl.
  destruct (get_n (assign_design self d)); reflexivity.
Qed.

Lemma get_n_assign_design (self : t) (d : list Q) :
  get_n (assign_design self d) = get_n self.
Proof. unfold get_n. simpl. apply rasterize_fields; reflexivity. Qed.

Lemma assign2_shape k m j i v n :
  has_shape k m n -> has_shape k m (assign2 j i v n).
Proof.
  intros [Hk Hm]. unfold assign2. split.
  - rewrite length_alter. exact Hk.
  - apply Forall_alter; [exact Hm|].
    intros row _ Hrow. rewrite length_insert. exact Hrow.
Qed.

Lemma rasterize_shape (self : t) polygon n :
  rasterize self polygon = Ok n ->
  has_shape (List.length (grid_z self) - 1) (List.length (grid_x self) - 1) n.
Proof.
  unfold rasterize. simpl.
  set (I := has_shape (List.length (grid_z self) - 1)
              (List.length (grid_x self) - 1)).
  apply (for_inv I).
  - intros [i xp] s s' Hs. apply (for_inv I); [|exact Hs].
    intros [j zp] s1 s2 Hs1.
    destruct (effective_index self polygon xp zp) as [v|e]; simpl;
      [|discriminate].
    intros [= <-]. apply assign2_shape. exact Hs1.
  - unfold I, np.zeros2. rewrite but_last_replicate. split.
    + rewrite length_map, length_replicate. reflexivity.
    + apply Forall_fmap, Forall_replicate. simpl.
      rewrite but_last_replicate, length_replicate. reflexivity.
Qed.

Lemma built_get_n_ok p w L sym sub mz (self : t) :
  built p w L sym sub mz self -> exists n, get_n self = Ok n.
Proof.
  induction 1 as [np self Hinit|self d Hb IH].
  - pose proof (init_inv _ _ _ _ _ _ _ _ Hinit) as Hself.
    revert Hinit. unfold __init__, set_design, set_layers. simpl.
    match goal with
    | |- context [get_n ?s] => destruct (get_n s) as [n|e] eqn:Hn
    end; simpl; [|discriminate].
    intros _. exists n. rewrite <- Hn. subst self.
    apply rasterize_fields; reflexivity.
  - simpl. rewrite get_n_assign_design. exact IH.
Qed.

Lemma init_ok p w L np sym sub mz core clad :
  core_index p = Some core -> cladding_index p = Some clad ->
  is_ok (__init__ p w L np sym sub mz) = true.
Proof.
  intros Hc Hd. unfold __init__, set_design, set_layers.
  rewrite (get_n_set _ core clad) by assumption. reflexivity.
Qed.


End Instances.

(** ** Cells under the laws of the geometry engine *)

Section Laws.
Context `{ModeSolver} `{engine : Shapely} `{Trig} {laws : ShapelyLaws engine}.
Import EMpyGeometryParameters DynamicRect2D.

Lemma cell_area_pos (xl xu zl zu : Q) :
  xl < xu -> zl < zu -> 0 < (xu - xl) * (zu - zl).
Proof. intros. apply Qmult_lt_0_compat; lra. Qed.

Lemma overlap_range polygon xl xu zl zu :
  xl < xu -> zl < zu ->
  0 <= overlap polygon xl xu zl zu /\
  overlap polygon xl xu zl zu <= (xu - xl) * (zu - zl).
Proof.
  intros Hx Hz. unfold overlap.
  pose proof (cell_area_pos xl xu zl zu Hx Hz).
  destruct (intersects _ _).
  - split; [apply intersection_area_nonneg | apply intersection_area_le];
      assumption.
  - lra.
Qed.

Lemma fraction_range polygon xl xu zl zu :
  xl < xu -> zl < zu ->
  0 <= fraction polygon xl xu zl zu /\ fraction polygon xl xu zl zu <= 1.
Proof.
  intros Hx Hz. unfold fraction.
  pose proof (cell_area_pos xl xu zl zu Hx Hz) as Hpos.
  destruct (overlap_range polygon xl xu zl zu Hx Hz) as [Hlo Hhi].
  split.
  - apply Qle_shift_div_l; lra.
  - apply Qle_shift_div_r; lra.
Qed.

Lemma fraction_pos_iff polygon xl xu zl zu :
  xl < xu -> zl < zu ->
  Qle_bool (fraction polygon xl xu zl zu) 0
  = Qeq_bool (overlap polygon xl xu zl zu) 0.
Proof.
  intros Hx Hz.
  pose proof (cell_area_pos xl xu zl zu Hx Hz) as Hpos.
  destruct (overlap_range polygon xl xu zl zu Hx Hz) as [Hlo Hhi].
  unfold fraction.
  destruct (Qeq_bool (overlap polygon xl xu zl zu) 0) eqn:E.
  - apply Qeq_bool_iff in E. apply Qle_bool_iff.
    rewrite E. unfold Qdiv. lra.
  - apply Qeq_bool_neq in E.
    destruct (Qle_bool _ 0) eqn:E'; [|reflexivity].
    apply Qle_bool_iff in E'. exfalso. apply E.
    assert (0 < overlap polygon xl xu zl zu \/ overlap polygon xl xu zl zu == 0)
      as [Hgt|Heq] by lra; [|assumption].
    assert (0 < overlap polygon xl xu zl zu / ((xu - xl) * (zu - zl))).
    { apply Qlt_shift_div_l; lra. }
    lra.
Qed.

Lemma index_value_spec sub core clad polygon xl xu zl zu :
  xl < xu -> zl < zu ->
  index_value sub core clad polygon (xl, xu) (zl, zu)
  = Some (spec_index sub core clad (fraction polygon xl xu zl zu)).
Proof.
  intros Hx Hz. unfold index_value, spec_index. simpl.
  destruct sub; [reflexivity|].
  rewrite fraction_pos_iff by assumption.
  destruct (Qeq_bool _ 0); reflexivity.
Qed.

Lemma fraction_straddles polygon xl xu zl zu :
  xl < xu -> zl < zu ->
  0 < fraction polygon xl xu zl zu -> fraction polygon xl xu zl zu < 1 ->
  straddles polygon xl xu zl zu.
Proof.
  intros Hx Hz Hpos Hlt1.
  pose proof (cell_area_pos xl xu zl zu Hx Hz) as Harea.
  unfold fraction, overlap in Hpos, Hlt1. unfold straddles.
  destruct (intersects (pixel xl xu zl zu) polygon).
  - split; [reflexivity|]. split.
    + apply Qnot_le_lt. intros Hle.
      assert (intersection_area (pixel xl xu zl zu) polygon
                / ((xu - xl) * (zu - zl)) <= 0).
      { apply Qle_shift_div_r; lra. }
      lra.
    + apply Qnot_le_lt. intros Hle.
      assert (1 <= intersection_area (pixel xl xu zl zu) polygon
                / ((xu - xl) * (zu - zl))).
      { apply Qle_shift_div_l; lra. }
      lra.
  - exfalso. unfold Qdiv in Hpos. lra.
Qed.

End Laws.

(** * The claims *)

Section Claims.
Context `{ModeSolver} `{engine : Shapely} `{Trig}.
Import EMpyGeometryParameters DynamicRect2D.

(** C10: the index map [get_n] and [set_design] return is the rasterized
    disc of radius [width / 2] centred at [(0, length / 2)]. It is the same
    for every design vector, and it is a function of the width, the length,
    the two grids, the subpixel flag and the two material indices alone. *)
Theorem index_map_ignores_design :
  (forall self : t,
     get_n self = rasterize self (buffer (Point 0 (length self / 2)) (width self / 2)))
  /\ (forall (self : t) (d1 d2 : list Q),
        snd (set_design self d1) = snd (set_design self d2)
        /\ get_n (fst (set_design self d1)) = get_n (fst (set_design self d2)))
  /\ (exists F : Q -> Q -> list Q -> list Q -> bool -> option Q -> option Q ->
                 result (list (list (option Q))),
        forall self : t,
          get_n self
          = F (width self) (length self) (grid_x self) (grid_z self)
              (subpixel self) (core_index (params self))
              (cladding_index (params self))).
Proof.
  split; [reflexivity|]. split.
  - intros self d1 d2. split; reflexivity.
  - exists (fun w L gx gz sub core clad =>
      get_n {| layers := None;
               params := with_mesh_indices 0 core clad;
               symmetry := false; subpixel := sub; width := w; length := L;
               grid_x := gx; grid_z := gz;
               static_vertices_left := []; static_vertices_right := [];
               design := [] |}).
    intros self. unfold get_n. simpl.
    apply rasterize_fields; reflexivity.
Qed.

(** C7: with [symmetry] set, the assembled vertex loop is the static left
    vertices, the top vertices of the design, the static right vertices and
    then the top vertices in reverse order with the transverse coordinate
    negated; every vertex [(x, z)] of the loop has a partner [(-x, z)]. *)
Theorem symmetric_loop_is_mirrored p w L sub mz (self : t) :
  built p w L true sub mz self ->
  let top := pairs (design self) in
  vertices self
  = [(- w / 2, 0); (w / 2, 0)] ++ top ++ [(w / 2, L); (- w / 2, L)]
      ++ map (fun '(x, z) => (- x, z)) (reverse top)
  /\ forall x z, (x, z) ∈ vertices self ->
       exists x', (x', z) ∈ vertices self /\ x' == - x.
Proof.
  intros Hb top.
  destruct (built_inv _ _ _ _ _ _ _ Hb)
    as (_ & _ & Hsym & _ & _ & _ & _ & _ & Hsl & Hsr).
  assert (Hv : vertices self
    = [(- w / 2, 0); (w / 2, 0)] ++ top ++ [(w / 2, L); (- w / 2, L)]
        ++ map (fun '(x, z) => (- x, z)) (reverse top)).
  { unfold vertices. rewrite Hsym, Hsl, Hsr, map_pair_id.
    rewrite <- !app_assoc. reflexivity. }
  split; [exact Hv|].
  rewrite Hv. intros x z Hin.
  rewrite !elem_of_app in Hin. rewrite !elem_of_cons in Hin.
  destruct Hin as [[Hin|[Hin|Hin]]|[Hin|[[Hin|[Hin|Hin]]|Hin]]].
  - injection Hin as -> ->. exists (w / 2). split; [in_loop|]. qlra.
  - injection Hin as -> ->. exists (- w / 2). split; [in_loop|]. qlra.
  - apply elem_of_nil in Hin. destruct Hin.
  - exists (- x). split; [|reflexivity].
    rewrite !elem_of_app. right. right. right.
    apply list_elem_of_fmap. exists (x, z). split; [reflexivity|].
    apply elem_of_reverse. exact Hin.
  - injection Hin as -> ->. exists (- w / 2). split; [in_loop|]. qlra.
  - injection Hin as -> ->. exists (w / 2). split; [in_loop|]. qlra.
  - apply elem_of_nil in Hin. destruct Hin.
  - apply list_elem_of_fmap in Hin as ([x0 z0] & Heq & Hin).
    injection Heq as -> ->. rewrite elem_of_reverse in Hin.
    exists x0. split; [|qlra].
    apply elem_of_app. right. apply elem_of_app. left. exact Hin.
Qed.

(** C6, as amended: [set_design] does not validate the design vector. For
    every design vector, of any length, it stores the vector and returns
    what [get_n] returns on the instance that holds it; it raises no
    [GeometryError]. *)
Theorem set_design_accepts_any_design (self : t) (d : list Q) :
  design (fst (set_design self d)) = d /\
  snd (set_design self d) = get_n (fst (set_design self d)) /\
  snd (set_design self d) <> Raise GeometryError.
Proof.
  split; [reflexivity|].
  split; [apply set_design_returns_get_n|].
  rewrite set_design_returns_get_n. intros Hraise.
  destruct (rasterize_raises _ _ _ Hraise) as (He & _).
  discriminate He.
Qed.

Context {laws : ShapelyLaws engine}.

(** C2: for a cell of the grid with bounds [xl < xu] and [zl < zu], the
    covered fraction lies between 0 and 1 and is 0 when the shape does not
    intersect the cell; [get_n] returns an array whose entry for the cell
    is [fraction * core + (1 - fraction) * cladding] with subpixel
    smoothing, and without it the core index when the fraction is positive
    and the cladding index otherwise. *)
Theorem get_n_cell_value (self : t) (core clad : Q)
    (j i : nat) (xl xu zl zu : Q) :
  core_index (params self) = Some core ->
  cladding_index (params self) = Some clad ->
  grid_x self !! i = Some xl -> grid_x self !! S i = Some xu ->
  grid_z self !! j = Some zl -> grid_z self !! S j = Some zu ->
  xl < xu -> zl < zu ->
  let polygon := buffer (Point 0 (length self / 2)) (width self / 2) in
  let fraction := fraction polygon xl xu zl zu in
  (0 <= fraction /\ fraction <= 1) /\
  (intersects (pixel xl xu zl zu) polygon = false -> fraction == 0) /\
  exists n row,
    get_n self = Ok n /\ n !! j = Some row /\
    row !! i = Some (Some (spec_index (subpixel self) core clad fraction)).
Proof.
  intros Hc Hd Hxl Hxu Hzl Hzu Hx Hz polygon frac.
  split; [apply fraction_range; assumption|]. split.
  - intros Hno. unfold frac, fraction, overlap. rewrite Hno.
    unfold Qdiv. lra.
  - rewrite (get_n_set self core clad Hc Hd).
    eexists _, _. split; [reflexivity|].
    rewrite !list_lookup_fmap.
    rewrite (proj2 (lookup_cells (grid_z self) j zl zu)) by done.
    simpl. split; [reflexivity|].
    rewrite !list_lookup_fmap.
    rewrite (proj2 (lookup_cells (grid_x self) i xl xu)) by done.
    simpl. rewrite index_value_spec by assumption. reflexivity.
Qed.

Lemma scenario_grid_x :
  grid_x_of scenario_params = np.linspace (- 2.5e-6 / 2) (2.5e-6 / 2) 50.
Proof. reflexivity. Qed.

(** C3: [get_n] of an instance built with [mesh_z] longitudinal points and
    a transverse grid of [M] points ([mesh] points when [x] is absent)
    returns an array of [mesh_z - 1] rows of [M - 1] entries, row by
    longitudinal cell. In the scenario with [mesh = 50], [mesh_z = 50],
    indices 3.4 and 1.4 and subpixel smoothing the constructor succeeds,
    the array is 49 by 49, every entry lies in [[1.4, 3.4]], and an entry
    strictly between the bounds belongs to a cell the shape covers in part
    only. *)
Theorem get_n_shape_and_range :
  (forall p w L sym sub mz (self : t),
      built p w L sym sub mz self ->
      List.length (grid_z self) = mz /\
      (x p = None -> List.length (grid_x self) = mesh p) /\
      (forall px, x p = Some px -> grid_x self = px) /\
      exists n,
        get_n self = Ok n /\
        has_shape (List.length (grid_z self) - 1)
          (List.length (grid_x self) - 1) n)
  /\ is_ok (__init__ scenario_params 1e-6 2.5e-6 10 true true 50) = true
  /\ (forall self : t,
        built scenario_params 1e-6 2.5e-6 true true 50 self ->
        exists n,
          get_n self = Ok n /\ has_shape 49 49 n /\
          forall j i row v,
            n !! j = Some row -> row !! i = Some v ->
            exists q xl xu zl zu,
              v = Some q /\ 1.4 <= q /\ q <= 3.4 /\
              cells (grid_x self) !! i = Some (xl, xu) /\
              cells (grid_z self) !! j = Some (zl, zu) /\
              (1.4 < q -> q < 3.4 ->
               straddles (buffer (Point 0 (2.5e-6 / 2)) (1e-6 / 2))
                 xl xu zl zu)).
Proof.
  split; [|split].
  - intros p w L sym sub mz self Hb.
    destruct (built_inv _ _ _ _ _ _ _ Hb)
      as (_ & _ & _ & _ & _ & _ & Hgx & Hgz & _).
    split; [rewrite Hgz; apply length_linspace|].
    split; [|split].
    + intros Hx. rewrite Hgx. unfold grid_x_of. rewrite Hx.
      apply length_linspace.
    + intros px Hx. rewrite Hgx. unfold grid_x_of. rewrite Hx. reflexivity.
    + destruct (built_get_n_ok _ _ _ _ _ _ _ Hb) as [n Hn].
      exists n. split; [exact Hn|].
      eapply rasterize_shape. exact Hn.
  - apply (init_ok _ _ _ _ _ _ _ 3.4 1.4); reflexivity.
  - intros self Hb.
    destruct (built_inv _ _ _ _ _ _ _ Hb)
      as (_ & Hp & _ & Hsub & Hw & HL & Hgx & Hgz & _).
    assert (Hc : core_index (params self) = Some 3.4) by (rewrite Hp; reflexivity).
    assert (Hd : cladding_index (params self) = Some 1.4)
      by (rewrite Hp; reflexivity).
    pose proof (get_n_set self 3.4 1.4 Hc Hd) as Hn.
    eexists. split; [exact Hn|]. split.
    + split.
      * rewrite length_map, length_cells, Hgz, length_linspace. reflexivity.
      * apply Forall_fmap, Forall_true. intros zp. simpl.
        rewrite length_map, length_cells, Hgx, scenario_grid_x, length_linspace.
        reflexivity.
    + intros j i row v Hrow Hv.
      rewrite list_lookup_fmap in Hrow.
      destruct (cells (grid_z self) !! j) as [[zl zu]|] eqn:Hzc;
        simpl in Hrow; [|discriminate].
      injection Hrow as <-.
      rewrite list_lookup_fmap in Hv.
      destruct (cells (grid_x self) !! i) as [[xl xu]|] eqn:Hxc;
        simpl in Hv; [|discriminate].
      injection Hv as <-.
      assert (Hx : xl < xu).
      { apply lookup_cells in Hxc as [Hlo Hhi].
        rewrite Hgx, scenario_grid_x in Hlo, Hhi.
        eapply linspace_increasing; [|exact Hlo|exact Hhi]. reflexivity. }
      assert (Hz : zl < zu).
      { apply lookup_cells in Hzc as [Hlo Hhi].
        rewrite Hgz in Hlo, Hhi.
        eapply linspace_increasing; [|exact Hlo|exact Hhi]. reflexivity. }
      rewrite index_value_spec by assumption.
      rewrite Hsub, Hw, HL.
      set (polygon := buffer (Point 0 (2.5e-6 / 2)) (1e-6 / 2)).
      destruct (fraction_range polygon xl xu zl zu Hx Hz) as [Hf0 Hf1].
      eexists _, xl, xu, zl, zu. split; [reflexivity|].
      unfold spec_index.
      split; [lra|]. split; [lra|]. split; [reflexivity|].
      split; [reflexivity|].
      intros Hlo Hhi. apply fraction_straddles; try assumption; lra.
Qed.

End Claims.

Section FactoryClaims.
Import EMpyGeometryParameters.

(** C5, as amended: the two factories do not look at [core_index] or
    [cladding_index]. Each passes both values, set or [None], unchanged to
    the mode-solver constructor and returns what the constructor returns;
    with a constructor that returns a handle for every argument list, both
    return a handle also when an index is unset. *)
Theorem solver_factories_forward_indices :
  (forall (MS : ModeSolver) (p : Params) (width thickness : Q) (num_modes : nat),
     exists kw,
       get_solver_rect p width thickness num_modes = MSEMpy kw /\
       kw_core_index kw = core_index p /\
       kw_cladding_index kw = cladding_index p) /\
  (forall (MS : ModeSolver) (p : Params) thickness num_modes n,
     exists kw,
       get_solver_index p thickness num_modes n = MSEMpy kw /\
       kw_core_index kw = core_index p /\
       kw_cladding_index kw = cladding_index p) /\
  (forall (p : Params) (width thickness : Q) (num_modes : nat),
     is_ok (@get_solver_rect spec_solver p width thickness num_modes) = true) /\
  (forall (p : Params) thickness num_modes n,
     is_ok (@get_solver_index spec_solver p thickness num_modes n) = true).
Proof.
  repeat split.
  - intros MS p width thickness num_modes. eexists. split; [reflexivity|].
    split; reflexivity.
  - intros MS p thickness num_modes n. eexists. split; [reflexivity|].
    split; reflexivity.
Qed.

End FactoryClaims.

Section Channels.
Import EMpyGeometryParameters WaveguideChannels.

(** Without [params.x] the first channel that is not excluded raises. *)
Lemma create_n_without_x (params : Params) (width gap clad : Q)
    (num_channels : nat) (exclude_indices : list nat) :
  x params = None ->
  cladding_index params = Some clad ->
  0%nat ∉ exclude_indices ->
  create_n params width gap (S num_channels) exclude_indices = Raise TypeError.
Proof.
  intros Hx Hclad Hex. unfold create_n. rewrite Hclad, Hx. simpl.
  rewrite bool_decide_eq_true_2 by exact Hex. reflexivity.
Qed.

(** C8, as amended: for three channels with channel 1 excluded and
    [params.x], [core_index] and [cladding_index] set, the profile is built
    when [x] has [mesh] samples, and an entry of a built profile is the
    core index when its sample lies in the interval of channel 0 or of
    channel 2, and the cladding index when its sample lies in neither of
    the two, the intervals taken with the edges as computed in binary64.
    A sample in the interval of channel 1 has the cladding index when the
    computed intervals are apart: the right edge of channel 0 below the
    left edge of channel 1, and the right edge of channel 1 below the left
    edge of channel 2. *)
Theorem channel_profile (params : Params) (width gap core clad : Q) (xs : list Q) :
  x params = Some xs ->
  core_index params = Some core ->
  cladding_index params = Some clad ->
  (List.length xs = mesh params ->
   is_ok (create_n params width gap 3 [1%nat]) = true) /\
  (forall n i v,
     create_n params width gap 3 [1%nat] = Ok n ->
     n !! i = Some v ->
     exists xi,
       np.broadcast_at xs i = Some xi /\
       (inside width gap 3 0 xi \/ inside width gap 3 2 xi -> v = Some core) /\
       (~ inside width gap 3 0 xi -> ~ inside width gap 3 2 xi ->
        v = Some clad)) /\
  (right_edge width gap 3 0 < left_edge width gap 3 1 ->
   right_edge width gap 3 1 < left_edge width gap 3 2 ->
   forall xi, inside width gap 3 1 xi ->
              ~ inside width gap 3 0 xi /\ ~ inside width gap 3 2 xi).
Proof.
  intros Hx Hcore Hclad.
  assert (Hdisjoint :
    right_edge width gap 3 0 < left_edge width gap 3 1 ->
    right_edge width gap 3 1 < left_edge width gap 3 2 ->
    forall xi, inside width gap 3 1 xi ->
               ~ inside width gap 3 0 xi /\ ~ inside width gap 3 2 xi).
  { intros H01 H12 xi. unfold inside. lra. }
  split; [|split; [|exact Hdisjoint]];
    unfold create_n; rewrite Hclad, Hx, Hcore;
    cbn -[left_edge right_edge Qle_bool];
    change (bool_decide (0%nat ∉ [1%nat])) with true;
    change (bool_decide (1%nat ∉ [1%nat])) with false;
    change (bool_decide (2%nat ∉ [1%nat])) with true;
    cbn -[left_edge right_edge Qle_bool].
  - intros Hlen.
    assert (Hw : forall (cond : list bool) (a : list (option Q)),
              List.length cond = List.length a ->
              exists r, np.where_ cond (Some core) a = Ok r
                        /\ List.length r = List.length a).
    { intros cond a Hl. unfold np.where_, np.broadcast2.
      destruct cond as [|c [|c' cond]], a as [|o [|o' a]];
        simpl in Hl; try discriminate; simpl; eauto.
      assert (Hl' : List.length cond = List.length a) by lia.
      rewrite (proj2 (Nat.eqb_eq _ _) Hl').
      eexists. split; [reflexivity|]. simpl.
      rewrite length_zip_with. lia. }
    destruct (Hw (map (fun xi => Qle_bool (left_edge width gap 3 0) xi
                                && Qle_bool xi (right_edge width gap 3 0)) xs)
                (map (fun v => Some (v * clad)) (np.ones (mesh params))))
      as (n1 & -> & Hn1).
    { unfold np.ones. rewrite !length_map, length_replicate. exact Hlen. }
    cbn -[left_edge right_edge Qle_bool].
    destruct (Hw (map (fun xi => Qle_bool (left_edge width gap 3 2) xi
                                && Qle_bool xi (right_edge width gap 3 2)) xs)
                n1) as (n2 & -> & Hn2).
    { rewrite Hn1. unfold np.ones.
      rewrite !length_map, length_replicate. exact Hlen. }
    reflexivity.
  - intros n i v.
    destruct (np.where_ _ (Some core) _) as [n1|e] eqn:H1;
      cbn -[left_edge right_edge Qle_bool]; [|discriminate].
    intros H2 Hv. apply bind_Ok_inv in H2. apply broadcast_at_lookup in Hv.
    destruct (where_at _ _ _ _ _ _ H2 Hv) as (cb2 & old & Hc2 & Hold & ->).
    destruct (where_at _ _ _ _ _ _ H1 Hold) as (cb0 & old0 & Hc0 & Hold0 & ->).
    rewrite broadcast_at_map in Hold0.
    destruct (np.broadcast_at (np.ones (mesh params)) i) as [o|] eqn:Ho;
      simpl in Hold0; [|discriminate].
    apply broadcast_at_replicate in Ho. subst o. injection Hold0 as <-.
    rewrite Qmult_1_l_eq.
    apply in_channel_at in Hc2 as (xi & Hxi & Hin2).
    apply in_channel_at in Hc0 as (xi' & Hxi' & Hin0).
    rewrite Hxi in Hxi'. injection Hxi' as <-.
    exists xi. split; [exact Hxi|]. unfold inside. split.
    + intros [Hin|Hin].
      * apply Hin0 in Hin. subst cb0. destruct cb2; reflexivity.
      * apply Hin2 in Hin. subst cb2. reflexivity.
    + intros Hn0 Hn2.
      destruct cb2; [exfalso; apply Hn2, Hin2; reflexivity|].
      destruct cb0; [exfalso; apply Hn0, Hin0; reflexivity|].
      reflexivity.
Qed.

End Channels.

(** * The claims on concrete inputs *)

Section Concrete.
#[local] Existing Instances spec_solver box_engine cubic_trig.
Import EMpyGeometryParameters DynamicRect2D.

Lemma example_rect_init :
  __init__ example_params 1e-6 2.5e-6 2 true true 5 = Ok example_rect.
Proof. vm_compute. reflexivity. Qed.

Lemma example_rect_built :
  built example_params 1e-6 2.5e-6 true true 5 example_rect.
Proof. apply (built_init _ _ _ _ _ _ 2%nat). exact example_rect_init. Qed.

(** C1: on the instance [example_rect] with the design [kink_design],
    [get_n] rasterizes the disc and not the polygon of the assembled
    vertices: the cell at row 0, column 1 lies in the bounding box of the
    assembled polygon and outside that of the disc, and [get_n] returns the
    cladding index 1.4 for it where the map of the assembled polygon has
    the core index 3.4. *)
Theorem get_n_rasterizes_disc_not_vertices :
  let self := fst (set_design example_rect kink_design) in
  get_n self = rasterize self (buffer (Point 0 (2.5e-6 / 2)) (1e-6 / 2)) /\
  entry_is (get_n self) 0 1 1.4 /\
  entry_is (get_n_of_vertices self) 0 1 3.4.
Proof.
  split; [reflexivity|]. split; vm_compute; reflexivity.
Qed.

(** C4: on the instance [example_rect], which is what the constructor
    builds, [set_design] stores the design and returns the index map of
    [get_n], and leaves the attribute [layers] unset: iterating over the
    geometry raises [AttributeError]. *)
Theorem set_design_leaves_layers_unset :
  __init__ example_params 1e-6 2.5e-6 2 true true 5 = Ok example_rect /\
  let r := set_design example_rect kink_design in
  get_design (fst r) = kink_design /\
  snd r = get_n (fst r) /\
  is_ok (snd r) = true /\
  layers (fst r) = None /\
  __iter__ (fst r) = Raise AttributeError.
Proof.
  split; [exact example_rect_init|].
  split; [reflexivity|]. split; [apply set_design_returns_get_n|].
  split; [vm_compute; reflexivity|]. split; reflexivity.
Qed.

(** C5, counterexample: with both indices unset, as in
    [EMpyGeometryParameters()], the two factories return a solver handle
    and raise nothing. *)
Lemma solver_factories_accept_unset_indices :
  core_index default = None /\ cladding_index default = None /\
  is_ok (get_solver_rect default 0.5e-6 0.22e-6 1) = true /\
  get_solver_rect default 0.5e-6 0.22e-6 1 <> Raise ConfigurationError /\
  is_ok (get_solver_index default None None None) = true /\
  get_solver_index default None None None <> Raise ConfigurationError.
Proof. repeat split; try reflexivity; discriminate. Qed.

(** C6, counterexample: a design of three numbers is stored and an index
    map comes back. *)
Lemma set_design_accepts_odd_design :
  Nat.odd (List.length odd_design) = true /\
  design (fst (set_design example_rect odd_design)) = odd_design /\
  is_ok (snd (set_design example_rect odd_design)) = true /\
  snd (set_design example_rect odd_design) <> Raise GeometryError.
Proof.
  split; [reflexivity|]. split; [reflexivity|].
  assert (Hok : is_ok (snd (set_design example_rect odd_design)) = true)
    by (vm_compute; reflexivity).
  split; [exact Hok|].
  intros Hraise. rewrite Hraise in Hok. discriminate.
Qed.

(** C8, counterexample: with channels of width 1 that overlap by a half,
    the sample at -0.25 lies in the interval of channel 1 and the profile
    has the core index there. *)
Lemma overlapping_channels_fill_channel_1 :
  x overlap_params = Some [-0.25; 0.25] /\
  WaveguideChannels.inside 1 (-0.5) 3 1 (-0.25) /\
  WaveguideChannels.create_n overlap_params 1 (-0.5) 3 [1%nat]
  = Ok [Some 3.4; Some 3.4] /\
  ~ 3.4 == 1.4.
Proof.
  split; [reflexivity|]. split.
  - split; apply Qle_bool_iff; reflexivity.
  - split; [reflexivity|]. intros Heq. discriminate Heq.
Qed.

(** C9: with [x] absent from the parameters the constructor of
    [WaveguideChannels] raises [TypeError] at the comparison with
    [params.x], for every mode solver, where [DynamicRect2D] takes the
    grid of [mesh] points over the cladding width. *)
Theorem waveguide_channels_needs_x :
  forall MS : ModeSolver,
    x (with_mesh_indices 128 (Some 3.4) (Some 1.4)) = None /\
    @WaveguideChannels.__init__ MS (with_mesh_indices 128 (Some 3.4) (Some 1.4))
      0.5e-6 0.22e-6 1e-6 1 0.1e-6 2 []
    = Raise TypeError /\
    grid_x_of (with_mesh_indices 128 (Some 3.4) (Some 1.4))
    = np.linspace (- 2.5e-6 / 2) (2.5e-6 / 2) 128.
Proof.
  intros MS. split; [reflexivity|]. split; [|reflexivity].
  unfold WaveguideChannels.__init__.
  rewrite (create_n_without_x _ _ _ 1.4); try reflexivity.
  apply not_elem_of_nil.
Qed.

(** The rounding of the edges decides these two profiles.  With width 0.2
    and gap 0.1 the computed right edge of channel 0 lies below the sample
    -0.2, which gets the cladding index; with width 1 and gap 1e-30 the
    computed intervals of channels 0 and 2 reach the samples -0.5 and 0.5
    of the interval of channel 1, which get the core index. *)
Lemma rounded_edges_decide :
  WaveguideChannels.right_edge f0_2 f0_1 3 0 < - f0_2 /\
  WaveguideChannels.create_n fifths_params f0_2 f0_1 3 [1%nat]
  = Ok [Some 1.4; Some 1.4] /\
  0 < f1e_30 /\
  WaveguideChannels.inside 1 f1e_30 3 1 (-0.5) /\
  WaveguideChannels.create_n halves_params 1 f1e_30 3 [1%nat]
  = Ok [Some 3.4; Some 3.4].
Proof.
  split; [vm_compute; reflexivity|].
  split; [vm_compute; reflexivity|].
  split; [vm_compute; reflexivity|].
  split; [|vm_compute; reflexivity].
  split; apply Qle_bool_iff; vm_compute; reflexivity.
Qed.

(** ** Witnesses *)

Lemma symmetric_loop_is_mirrored_witness :
  built example_params 1e-6 2.5e-6 true true 5 example_rect /\
  (let top := pairs (design example_rect) in
   vertices example_rect
   = [(- 1e-6 / 2, 0); (1e-6 / 2, 0)] ++ top
       ++ [(1e-6 / 2, 2.5e-6); (- 1e-6 / 2, 2.5e-6)]
       ++ map (fun '(x, z) => (- x, z)) (reverse top)
   /\ forall x z, (x, z) ∈ vertices example_rect ->
        exists x', (x', z) ∈ vertices example_rect /\ x' == - x).
Proof.
  split; [exact example_rect_built|].
  exact (symmetric_loop_is_mirrored example_params 1e-6 2.5e-6 true 5
           example_rect example_rect_built).
Defined.

Lemma get_n_cell_value_witness :
  exists xl xu zl zu,
    (grid_x example_rect !! 1%nat = Some xl /\
     grid_x example_rect !! 2%nat = Some xu /\
     grid_z example_rect !! 0%nat = Some zl /\
     grid_z example_rect !! 1%nat = Some zu /\
     xl < xu /\ zl < zu) /\
    let polygon := buffer (Point 0 (2.5e-6 / 2)) (1e-6 / 2) in
    let fraction := fraction polygon xl xu zl zu in
    (0 <= fraction /\ fraction <= 1) /\
    (intersects (pixel xl xu zl zu) polygon = false -> fraction == 0) /\
    exists n row,
      get_n example_rect = Ok n /\ n !! 0%nat = Some row /\
      row !! 1%nat = Some (Some (spec_index true 3.4 1.4 fraction)).
Proof.
  eexists _, _, _, _.
  split.
  - split; [reflexivity|]. split; [reflexivity|].
    split; [reflexivity|]. split; [reflexivity|].
    split; reflexivity.
  - refine (get_n_cell_value (laws := box_engine_laws) example_rect 3.4 1.4
              0 1 _ _ _ _ eq_refl eq_refl eq_refl eq_refl eq_refl eq_refl
              _ _); reflexivity.
Defined.

Lemma get_n_shape_and_range_witness :
  ShapelyLaws box_engine /\
  built example_params 1e-6 2.5e-6 true true 5 example_rect /\
  exists n, get_n example_rect = Ok n /\ has_shape 4 4 n.
Proof.
  split; [exact box_engine_laws|]. split; [exact example_rect_built|].
  destruct (get_n_shape_and_range (laws := box_engine_laws)) as [Hshape _].
  destruct (Hshape _ _ _ _ _ _ _ example_rect_built)
    as (_ & _ & _ & n & Hn & Hs).
  exists n. split; [exact Hn|]. exact Hs.
Defined.

Lemma channel_profile_witness :
  x overlap_params = Some [-0.25; 0.25] /\
  core_index overlap_params = Some 3.4 /\
  cladding_index overlap_params = Some 1.4 /\
  is_ok (WaveguideChannels.create_n overlap_params 1 0.5 3 [1%nat]) = true.
Proof.
  split; [reflexivity|]. split; [reflexivity|]. split; [reflexivity|].
  destruct (channel_profile overlap_params 1 0.5 3.4 1.4 [-0.25; 0.25]
              eq_refl eq_refl eq_refl) as [Hok _].
  apply Hok. reflexivity.
Defined.

End Concrete.

(** * Further properties *)

Section Pairing.
Import EMpyGeometryParameters DynamicRect2D.

(** ** Pairing a flat design *)

Lemma pairs_nil : pairs [] = [].
Proof. reflexivity. Qed.

Lemma pairs_single (a : Q) : pairs [a] = [].
Proof. reflexivity. Qed.

Lemma pairs_cons2 (a b : Q) (l : list Q) :
  pairs (a :: b :: l) = (a, b) :: pairs l.
Proof.
  unfold pairs, pyzip, but_last, from_1.
  destruct l as [|c l]; [reflexivity|].
  simpl. rewrite Nat.sub_0_r. reflexivity.
Qed.

Lemma list_ind2 {A : Type} (P : list A -> Prop) :
  P [] -> (forall a, P [a]) -> (forall a b l, P l -> P (a :: b :: l)) ->
  forall l, P l.
Proof.
  intros Hnil Hone Hstep.
  assert (H : forall l, P l /\ forall a, P (a :: l)).
  { induction l as [|b l [IH1 IH2]]; split; auto. }
  intros l. apply H.
Qed.

Lemma length_pairs (l : list Q) :
  List.length (pairs l) = (List.length l / 2)%nat.
Proof.
  induction l as [| a | a b l IH] using list_ind2; try reflexivity.
  rewrite pairs_cons2. cbn [List.length]. rewrite IH.
  change (S (S (List.length l))) with (2 + List.length l)%nat.
  replace (2 + List.length l)%nat with (1 * 2 + List.length l)%nat by lia.
  rewrite Nat.div_add_l by lia. reflexivity.
Qed.

Lemma pairs_flatten (vs : list (Q * Q)) :
  pairs (flatten_pairs vs) = vs.
Proof.
  induction vs as [|[a b] vs IH]; [reflexivity|].
  unfold flatten_pairs in *. simpl. rewrite pairs_cons2, IH. reflexivity.
Qed.

Lemma length_flatten_pairs {A : Type} (vs : list (A * A)) :
  List.length (flatten_pairs vs) = (2 * List.length vs)%nat.
Proof.
  induction vs as [|v vs IH]; [reflexivity|].
  unfold flatten_pairs in *. simpl. rewrite IH. lia.
Qed.

Lemma flatten_pairs_app {A : Type} (u v : list (A * A)) :
  flatten_pairs (u ++ v) = flatten_pairs u ++ flatten_pairs v.
Proof. unfold flatten_pairs. rewrite map_app, concat_app. reflexivity. Qed.

Lemma pairs_snoc_even (l : list Q) (a : Q) :
  Nat.even (List.length l) = true -> pairs (l ++ [a]) = pairs l.
Proof.
  induction l as [| b | b c l IH] using list_ind2; intros Hev.
  - reflexivity.
  - discriminate.
  - simpl. rewrite !pairs_cons2, IH; [reflexivity|exact Hev].
Qed.

(** X1: the pairing of [get_n] undoes the flattening of [__init__]: a
    flattened vertex list is read back as the same vertices, and a number
    left over at the end of the design is ignored. *)
Theorem design_round_trip (vs : list (Q * Q)) (a : Q) :
  pairs (flatten_pairs vs) = vs /\
  pairs (flatten_pairs vs ++ [a]) = vs.
Proof.
  split; [apply pairs_flatten|].
  rewrite pairs_snoc_even; [apply pairs_flatten|].
  rewrite length_flatten_pairs.
  rewrite Nat.even_mul. reflexivity.
Qed.

End Pairing.

Section Loop.
Context `{ModeSolver} `{Shapely} `{Trig}.
Import EMpyGeometryParameters DynamicRect2D.

Lemma take_flatten_pairs_app (u v : list (Q * Q)) :
  List.length u = List.length v ->
  take (List.length (flatten_pairs (u ++ v)) / 2) (flatten_pairs (u ++ v))
  = flatten_pairs u /\
  drop (List.length (flatten_pairs (u ++ v)) / 2) (flatten_pairs (u ++ v))
  = flatten_pairs v.
Proof.
  intros Hlen.
  assert (Hhalf : (List.length (flatten_pairs (u ++ v)) / 2)%nat
                  = List.length (flatten_pairs u)).
  { rewrite !length_flatten_pairs, length_app, <- Hlen.
    replace (2 * (List.length u + List.length u))%nat
      with (2 * List.length u * 2)%nat by lia.
    apply Nat.div_mul. lia. }
  rewrite Hhalf, flatten_pairs_app. split.
  - apply take_app_length.
  - apply drop_app_length.
Qed.

Lemma loop_of_halves (self : t) (top bottom : list (Q * Q)) :
  symmetry self = false ->
  design self = flatten_pairs (top ++ bottom) ->
  List.length top = List.length bottom ->
  vertices self
  = static_vertices_left self ++ top ++ static_vertices_right self ++ bottom.
Proof.
  intros Hsym Hd Hlen. unfold vertices. rewrite Hsym, Hd.
  destruct (take_flatten_pairs_app top bottom Hlen) as [-> ->].
  rewrite !map_pair_id, !pairs_flatten, <- !app_assoc. reflexivity.
Qed.

(** X2: without symmetry, a design that holds as many top as bottom
    vertices is assembled into the loop static left, top, static right,
    bottom. *)
Theorem asymmetric_loop (self : t) (top bottom : list (Q * Q)) :
  symmetry self = false ->
  design self = flatten_pairs (top ++ bottom) ->
  List.length top = List.length bottom ->
  vertices self
  = static_vertices_left self ++ top ++ static_vertices_right self ++ bottom.
Proof. exact (loop_of_halves self top bottom). Qed.

(** X3: the number of vertices of the assembled loop, for a design of any
    length: with symmetry each pair of numbers gives two vertices, without
    it each half of the design is paired on its own. *)
Theorem vertex_count (self : t) :
  List.length (vertices self)
  = (List.length (static_vertices_left self)
     + List.length (static_vertices_right self)
     + if symmetry self then 2 * (List.length (design self) / 2)
       else List.length (design self) / 2 / 2
            + (List.length (design self) - List.length (design self) / 2) / 2)%nat.
Proof.
  unfold vertices. rewrite app_nil_l. destruct (symmetry self).
  - rewrite !length_app, !length_map, length_reverse, !length_pairs. lia.
  - rewrite !length_app, !length_map, !length_pairs, length_take, length_drop.
    rewrite Nat.min_l by (apply Nat.Div0.div_le_upper_bound; lia).
    lia.
Qed.

Lemma length_interior (L : Q) (n : nat) :
  List.length (but_last (from_1 (np.linspace 0 L (n + 2)))) = n.
Proof. rewrite length_but_last, length_from_1, length_linspace. lia. Qed.

(** X4: the loop of a freshly constructed instance: [num_params] vertices
    on the top side at the interior points of the longitudinal axis, and
    as many on the bottom side, mirrored with symmetry and on the straight
    edge [-width / 2] in reverse order without it. *)
Theorem initial_loop p w L n sym sub mz (self : t) :
  __init__ p w L n sym sub mz = Ok self ->
  let zs := but_last (from_1 (np.linspace 0 L (n + 2))) in
  let top :=
    zip (zip_with Qplus (replicate n (w / 2))
           (map (fun zk => sin (zk / L * pi) * w / 2) zs)) zs in
  let bottom :=
    if sym then map (fun '(x, z) => (- x, z)) (reverse top)
    else zip (replicate n (- w / 2)) (reverse zs) in
  List.length top = n /\ List.length bottom = n /\
  design self = flatten_pairs (if sym then top else top ++ zip (replicate n (- w / 2)) (reverse zs)) /\
  vertices self
  = [(- w / 2, 0); (w / 2, 0)] ++ top ++ [(w / 2, L); (- w / 2, L)] ++ bottom.
Proof.
  intros Hinit zs top bottom.
  apply init_inv in Hinit.
  assert (Hzs : List.length zs = n) by apply length_interior.
  assert (Htop : List.length top = n).
  { unfold top. rewrite length_zip, length_zip_with, length_replicate,
      length_map, Hzs. lia. }
  assert (Hbot : List.length (zip (replicate n (- w / 2)) (reverse zs)) = n).
  { rewrite length_zip, length_replicate, length_reverse, Hzs. lia. }
  split; [exact Htop|]. split.
  { unfold bottom. destruct sym; [|exact Hbot].
    rewrite length_map, length_reverse. exact Htop. }
  assert (Hd : design self
    = flatten_pairs (if sym then top
                     else top ++ zip (replicate n (- w / 2)) (reverse zs))).
  { subst self. simpl. unfold initial_design, pyzip.
    destruct sym; reflexivity. }
  split; [exact Hd|].
  assert (Hsym : symmetry self = sym) by (subst self; reflexivity).
  assert (Hsl : static_vertices_left self = [(- w / 2, 0); (w / 2, 0)])
    by (subst self; reflexivity).
  assert (Hsr : static_vertices_right self = [(w / 2, L); (- w / 2, L)])
    by (subst self; reflexivity).
  clear Hinit. destruct sym.
  - unfold vertices.
    rewrite Hsym, Hsl, Hsr, Hd, map_pair_id, pairs_flatten, <- !app_assoc.
    reflexivity.
  - rewrite (loop_of_halves self top (zip (replicate n (- w / 2)) (reverse zs)));
      [|exact Hsym|exact Hd|congruence].
    rewrite Hsl, Hsr. reflexivity.
Qed.
End Loop.

Lemma outer_without_rows {A B S : Type}
    (body : nat -> A -> nat -> B -> S -> result S) (l : list (nat * A)) (n : S) :
  for_ l
    (fun '(i, xp) n =>
       for_ (enumerate ([] : list B)) (fun '(j, zp) n => body i xp j zp n) n)
    n
  = Ok n.
Proof.
  revert n. induction l as [|[i a] l IH]; intros n; simpl; [reflexivity|apply IH].
Qed.

Section Errors.
Context `{ModeSolver} `{engine : Shapely} `{Trig}.
Import EMpyGeometryParameters DynamicRect2D.

Lemma effective_index_unset (self : t) polygon xp zp :
  subpixel self = true ->
  core_index (params self) = None \/ cladding_index (params self) = None ->
  effective_index self polygon xp zp = Raise TypeError.
Proof.
  intros Hsub Hnone. destruct xp as [xl xu], zp as [zl zu].
  unfold effective_index. rewrite Hsub.
  destruct Hnone as [-> | ->]; [reflexivity|].
  destruct (core_index (params self)); reflexivity.
Qed.

Lemma get_n_raise_cases (self : t) (e : exn) :
  get_n self = Raise e <->
  e = TypeError /\ subpixel self = true /\
  (core_index (params self) = None \/ cladding_index (params self) = None) /\
  (2 <= List.length (grid_x self))%nat /\ (2 <= List.length (grid_z self))%nat.
Proof.
  split.
  - intros Hraise.
    destruct (rasterize_raises _ _ _ Hraise) as (He & Hsub & Hnone).
    split; [exact He|]. split; [exact Hsub|]. split; [exact Hnone|].
    revert Hraise. unfold get_n, rasterize. simpl.
    fold (cells (grid_x self)). fold (cells (grid_z self)).
    pose proof (length_cells (grid_x self)) as Hx.
    pose proof (length_cells (grid_z self)) as Hz.
    destruct (cells (grid_x self)) as [|xp xs]; [discriminate|].
    destruct (cells (grid_z self)) as [|zp zs].
    + intros Hraise. exfalso.
      rewrite (outer_without_rows
                 (fun i xp j zp n =>
                    v ← effective_index self
                          (buffer (Point 0 (length self / 2)) (width self / 2))
                          xp zp;
                    Ok (assign2 j i v n))) in Hraise.
      discriminate.
    + intros _. simpl in Hx, Hz. lia.
  - intros (-> & Hsub & Hnone & Hx & Hz).
    unfold get_n, rasterize. simpl.
    fold (cells (grid_x self)). fold (cells (grid_z self)).
    pose proof (length_cells (grid_x self)) as Hcx.
    pose proof (length_cells (grid_z self)) as Hcz.
    destruct (cells (grid_x self)) as [|xp xs]; [simpl in Hcx; lia|].
    destruct (cells (grid_z self)) as [|zp zs]; [simpl in Hcz; lia|].
    simpl. rewrite effective_index_unset by assumption. reflexivity.
Qed.

(** X5: [get_n] raises exactly when subpixel smoothing is on, a material
    index is [None] and the grid has a cell, that is two points or more in
    each direction; the exception is then [TypeError]. *)
Theorem get_n_raises_iff (self : t) (e : exn) :
  get_n self = Raise e <->
  e = TypeError /\ subpixel self = true /\
  (core_index (params self) = None \/ cladding_index (params self) = None) /\
  (2 <= List.length (grid_x self))%nat /\ (2 <= List.length (grid_z self))%nat.
Proof. exact (get_n_raise_cases self e). Qed.

(** X6: without subpixel smoothing [get_n] always returns an array of the
    shape of the grid cells, and each entry is the core index or the
    cladding index as the parameters hold it, [None] included. *)
Theorem staircase_never_raises (self : t) :
  subpixel self = false ->
  exists n,
    get_n self = Ok n /\
    has_shape (List.length (grid_z self) - 1) (List.length (grid_x self) - 1) n /\
    forall j i row v,
      n !! j = Some row -> row !! i = Some v ->
      v = core_index (params self) \/ v = cladding_index (params self).
Proof.
  intros Hsub.
  assert (Hn := rasterize_table self
    (buffer (Point 0 (length self / 2)) (width self / 2)) _
    (fun xp zp => effective_index_staircase self _ xp zp Hsub)).
  eexists. split; [exact Hn|]. split.
  - eapply rasterize_shape. exact Hn.
  - intros j i row v Hrow Hv.
    rewrite list_lookup_fmap in Hrow.
    destruct (cells (grid_z self) !! j) as [zp|]; simpl in Hrow; [|discriminate].
    injection Hrow as <-.
    rewrite list_lookup_fmap in Hv.
    destruct (cells (grid_x self) !! i) as [xp|]; simpl in Hv; [|discriminate].
    injection Hv as <-.
    destruct (negb _); auto.
Qed.

(** X7: every instance, however many designs it was given, has the
    parameters, flags, grids and static vertices its constructor computed,
    and no [layers] attribute. *)
Theorem built_keeps_constructor_state p w L sym sub mz (self : t) :
  built p w L sym sub mz self ->
  layers self = None /\ params self = p /\ symmetry self = sym /\
  subpixel self = sub /\ width self = w /\ length self = L /\
  grid_x self = grid_x_of p /\ grid_z self = np.linspace 0 L mz /\
  static_vertices_left self = [(- w / 2, 0); (w / 2, 0)] /\
  static_vertices_right self = [(w / 2, L); (- w / 2, L)] /\
  List.length (grid_z self) = mz.
Proof.
  intros Hb.
  destruct (built_inv _ _ _ _ _ _ _ Hb)
    as (H1 & H2 & H3 & H4 & H5 & H6 & H7 & H8 & H9 & H10).
  repeat (split; [assumption|]).
  rewrite H8. apply length_linspace.
Qed.

(** X8: on a constructed instance [set_design] never raises: for every
    design it returns the index map [get_n] returned before the call, and
    [get_n] returns it again afterwards. *)
Theorem built_set_design_succeeds p w L sym sub mz (self : t) (d : list Q) :
  built p w L sym sub mz self ->
  exists n,
    get_n self = Ok n /\
    snd (set_design self d) = Ok n /\
    get_n (fst (set_design self d)) = Ok n.
Proof.
  intros Hb. destruct (built_get_n_ok _ _ _ _ _ _ _ Hb) as [n Hn].
  exists n. split; [exact Hn|].
  rewrite set_design_returns_get_n. simpl. rewrite get_n_assign_design.
  split; exact Hn.
Qed.

(** On counts that are not negative the constructor over ints is the
    constructor over naturals. *)
Lemma init_int_nat p w L (n : nat) sym sub (mz : nat) :
  __init__int p w L (Z.of_nat n) sym sub (Z.of_nat mz)
  = __init__ p w L n sym sub mz.
Proof.
  unfold __init__int, __init__, np.linspace_int, initial_design.
  destruct (Z.ltb_spec (Z.of_nat mz) 0) as [Hneg|_]; [lia|].
  destruct (Z.ltb_spec (Z.of_nat n + 2) 0) as [Hneg|_]; [lia|].
  cbn [mbind result_bind].
  rewrite !Nat2Z.id.
  replace (Z.to_nat (Z.of_nat n + 2)) with (n + 2)%nat by lia.
  reflexivity.
Qed.

(** X9: the constructor raises [ValueError] exactly when [mesh_z] or
    [num_params + 2] is negative, and [TypeError] exactly when neither is,
    subpixel smoothing is on, a material index is [None], the transverse
    grid has two points or more and [mesh_z] is two or more; it raises
    nothing else. *)
Theorem init_raises_iff p w L (np : Z) sym sub (mz : Z) (e : exn) :
  __init__int p w L np sym sub mz = Raise e <->
  (e = ValueError /\ (mz < 0 \/ np + 2 < 0)%Z) \/
  (e = TypeError /\ (0 <= np + 2)%Z /\ sub = true /\
   (core_index p = None \/ cladding_index p = None) /\
   (2 <= List.length (grid_x_of p))%nat /\ (2 <= mz)%Z).
Proof.
  unfold __init__int, np.linspace_int.
  destruct (Z.ltb_spec mz 0) as [Hmz|Hmz].
  { cbn [mbind result_bind]. split.
    - intros [= <-]. left. split; [reflexivity|lia].
    - intros [[-> _]|(_ & _ & _ & _ & _ & Hge)]; [reflexivity|lia]. }
  destruct (Z.ltb_spec (np + 2) 0) as [Hnp|Hnp].
  { cbn [mbind result_bind]. split.
    - intros [= <-]. left. split; [reflexivity|lia].
    - intros [[-> _]|(_ & Hge & _)]; [reflexivity|lia]. }
  cbn [mbind result_bind]. unfold set_design, set_layers.
  match goal with
  | |- context [get_n ?s] => set (self := s)
  end.
  pose proof (get_n_raise_cases self e) as Hiff.
  assert (Hsub : subpixel self = sub) by reflexivity.
  assert (Hp : params self = p) by reflexivity.
  assert (Hgx : grid_x self = grid_x_of p) by reflexivity.
  assert (Hgz : List.length (grid_z self) = Z.to_nat mz).
  { unfold self. cbn [grid_z assign_design]. apply length_linspace. }
  rewrite Hsub, Hp, Hgx, Hgz in Hiff. clearbody self.
  destruct (get_n self) as [n|e']; cbn [mbind result_bind]; split.
  - discriminate.
  - intros [[_ Hneg]|(He & _ & Hs & Hnone & Hx & Hz)]; [lia|].
    exfalso. assert (Hc : Ok n = Raise e); [|discriminate Hc].
    apply (proj2 Hiff). repeat split; try assumption. lia.
  - intros [= ->]. right.
    destruct (proj1 Hiff eq_refl) as (He & Hs & Hnone & Hx & Hz).
    repeat split; try assumption; lia.
  - intros [[_ Hneg]|(He & _ & Hs & Hnone & Hx & Hz)]; [lia|].
    assert (Hc : @Raise (list (list (option Q))) e' = Raise e).
    { apply (proj2 Hiff). repeat split; try assumption. lia. }
    injection Hc as ->. reflexivity.
Qed.

Context {laws : ShapelyLaws engine}.

End Errors.

Lemma for_total {A S : Type} (I : S -> Prop) (body : A -> S -> result S) :
  (forall a s, I s -> exists s', body a s = Ok s' /\ I s') ->
  forall l s, I s -> exists s', for_ l body s = Ok s' /\ I s'.
Proof.
  intros Hbody l. induction l as [|a l IH]; intros s Hs; simpl.
  - eauto.
  - destruct (Hbody a s Hs) as (s1 & -> & Hs1). simpl. apply IH, Hs1.
Qed.



Lemma where_length {A : Type} (cond : list bool) (v : A) (a : list A) :
  List.length cond = List.length a ->
  exists r, np.where_ cond v a = Ok r /\ List.length r = List.length a.
Proof.
  intros Hl. unfold np.where_, np.broadcast2.
  destruct cond as [|c [|c' cond]], a as [|o [|o' a]];
    simpl in Hl; try discriminate; simpl; eauto.
  assert (Hl' : List.length cond = List.length a) by lia.
  rewrite (proj2 (Nat.eqb_eq _ _) Hl').
  eexists. split; [reflexivity|]. simpl.
  rewrite length_zip_with. lia.
Qed.


Section ChannelLoop.
Import EMpyGeometryParameters WaveguideChannels.

Lemma cladding_profile (m : nat) (clad : Q) :
  map (fun v => Some (v * clad)) (np.ones m) = replicate m (Some clad).
Proof.
  unfold np.ones. induction m as [|m IH]; simpl; [reflexivity|].
  rewrite IH, Qmult_1_l_eq. reflexivity.
Qed.


(** X12: when [x] has [mesh] samples and the cladding index is set, the
    profile is built and has [mesh] entries, for any number of channels
    and any exclusion list. *)
Theorem create_n_builds (params : Params) (width gap clad : Q) (xs : list Q)
    (num_channels : nat) (exclude_indices : list nat) :
  x params = Some xs ->
  cladding_index params = Some clad ->
  List.length xs = mesh params ->
  exists n,
    create_n params width gap num_channels exclude_indices = Ok n /\
    List.length n = mesh params.
Proof.
  intros Hx Hclad Hlen. unfold create_n. rewrite Hclad. simpl.
  apply (for_total (fun n => List.length n = mesh params)).
  - intros out n Hn. destruct (bool_decide _); [|eauto].
    rewrite Hx. simpl.
    destruct (where_length
                (map (fun xi => Qle_bool (left_edge width gap num_channels out) xi
                                && Qle_bool xi (right_edge width gap num_channels out))
                   xs)
                (core_index params) n) as (r & -> & Hr).
    + rewrite length_map. congruence.
    + exists r. split; [reflexivity|]. congruence.
  - unfold np.ones. rewrite length_map, length_replicate. reflexivity.
Qed.


End ChannelLoop.

Lemma for_seq_inv {S : Type} (I : nat -> S -> Prop) (body : nat -> S -> result S) :
  (forall k s s', I k s -> body k s = Ok s' -> I (Datatypes.S k) s') ->
  forall len a s s',
    I a s -> for_ (seq a len) body s = Ok s' -> I (a + len)%nat s'.
Proof.
  intros Hbody len. induction len as [|len IH]; intros a s s' Hs; simpl.
  - intros [= <-]. rewrite Nat.add_0_r. exact Hs.
  - destruct (body a s) as [s1|e] eqn:Hb; simpl; [|discriminate].
    intros Hfor. replace (a + Datatypes.S len)%nat with (Datatypes.S a + len)%nat by lia.
    eapply IH; [|exact Hfor]. eapply Hbody; eassumption.
Qed.

Section Profiles.
Import EMpyGeometryParameters WaveguideChannels.

Lemma create_n_entry_after (params : Params) (width gap clad : Q) (xs : list Q)
    (num_channels : nat) (exclude_indices : list nat) (n : list (option Q)) :
  x params = Some xs ->
  cladding_index params = Some clad ->
  create_n params width gap num_channels exclude_indices = Ok n ->
  forall i v,
    n !! i = Some v ->
    entry_after params width gap clad num_channels exclude_indices xs
      num_channels i v.
Proof.
  intros Hx Hclad. unfold create_n. rewrite Hclad. simpl.
  rewrite cladding_profile. intros Hfor i v Hv.
  apply broadcast_at_lookup in Hv. revert i v Hv.
  change num_channels with (0 + num_channels)%nat at 2.
  revert Hfor.
  apply (for_seq_inv
    (fun b n => forall i v, np.broadcast_at n i = Some v ->
       entry_after params width gap clad num_channels exclude_indices xs b i v)).
  - intros k s s' Hs. destruct (bool_decide (k ∉ exclude_indices)) eqn:Hdec.
    + apply bool_decide_eq_true_1 in Hdec. rewrite Hx. simpl.
      intros Hw i v Hv.
      destruct (where_at _ _ _ _ _ _ Hw Hv) as (cb & old & Hcb & Hold & ->).
      apply in_channel_at in Hcb as (xi & Hxi & Hin).
      destruct cb.
      * left. split; [reflexivity|]. exists k, xi.
        split; [lia|]. split; [exact Hdec|]. split; [exact Hxi|].
        apply Hin. reflexivity.
      * destruct (Hs i old Hold) as [(-> & k' & xi' & ? & ? & ? & ?)|(-> & Hnone)].
        -- left. split; [reflexivity|]. exists k', xi'.
           split; [lia|]. split; [assumption|]. split; assumption.
        -- right. split; [reflexivity|]. intros k' xi' Hk' Hex' Hxi'.
           destruct (decide (k' = k)) as [->|Hne].
           ++ rewrite Hxi in Hxi'. injection Hxi' as <-.
              intros Hins. apply Hin in Hins. discriminate.
           ++ apply Hnone; [lia|assumption..].
    + apply bool_decide_eq_false_1 in Hdec.
      intros [= <-] i v Hv.
      destruct (Hs i v Hv) as [(-> & k' & xi' & ? & ? & ? & ?)|(-> & Hnone)].
      * left. split; [reflexivity|]. exists k', xi'.
           split; [lia|]. split; [assumption|]. split; assumption.
      * right. split; [reflexivity|]. intros k' xi' Hk' Hex' Hxi'.
        destruct (decide (k' = k)) as [->|Hne]; [contradiction|].
        apply Hnone; [lia|assumption..].
  - intros i v Hv. apply broadcast_at_replicate in Hv. subst v.
    right. split; [reflexivity|]. intros k xi Hk. lia.
Qed.

(** X14: every entry of a built profile is the core index, and its sample
    lies in the interval of a channel that is not excluded, or it is the
    cladding index, and its sample lies in no such interval. *)
Theorem create_n_entries (params : Params) (width gap clad : Q) (xs : list Q)
    (num_channels : nat) (exclude_indices : list nat) (n : list (option Q)) :
  x params = Some xs ->
  cladding_index params = Some clad ->
  create_n params width gap num_channels exclude_indices = Ok n ->
  forall i v,
    n !! i = Some v ->
    entry_after params width gap clad num_channels exclude_indices xs
      num_channels i v.
Proof. exact (create_n_entry_after params width gap clad xs num_channels
                 exclude_indices n). Qed.

(** X15: the two profiles of a directional coupler (channel 1 left out,
    and both channels) agree entry by entry except where the sample lies
    in the interval of channel 1 and the full profile has the core index. *)
Theorem coupler_input_differs_in_channel_1 (params : Params)
    (width gap clad : Q) (xs : list Q) (a b : list (option Q)) :
  x params = Some xs ->
  cladding_index params = Some clad ->
  create_n params width gap 2 [1%nat] = Ok a ->
  create_n params width gap 2 [] = Ok b ->
  forall i va vb,
    a !! i = Some va -> b !! i = Some vb ->
    va = vb \/
    (vb = core_index params /\
     exists xi, np.broadcast_at xs i = Some xi /\ inside width gap 2 1 xi).
Proof.
  intros Hx Hclad Ha Hb i va vb Hva Hvb.
  pose proof (create_n_entry_after _ _ _ _ _ _ _ _ Hx Hclad Ha i va Hva) as Ea.
  pose proof (create_n_entry_after _ _ _ _ _ _ _ _ Hx Hclad Hb i vb Hvb) as Eb.
  destruct Eb as [(-> & k & xi & Hk & _ & Hxi & Hin)|(-> & Hnone)].
  - destruct Ea as [(-> & _)|(-> & Hnone)]; [left; reflexivity|].
    right. split; [reflexivity|]. exists xi. split; [exact Hxi|].
    assert (k = 0 \/ k = 1)%nat as [->| ->] by lia; [|exact Hin].
    exfalso. apply (Hnone 0%nat xi); auto.
    intros Hel. apply elem_of_cons in Hel as [Hel|Hel]; [discriminate|].
    apply elem_of_nil in Hel. destruct Hel.
  - destruct Ea as [(-> & k & xi & Hk & Hex & Hxi & Hin)|(-> & _)];
      [|left; reflexivity].
    exfalso. apply (Hnone k xi); auto. apply not_elem_of_nil.
Qed.

End Profiles.

Section Composites.
Context `{ModeSolver}.
Import EMpyGeometryParameters.

(** X20: the constructor of the parameters stores its eleven keyword
    arguments when no other keyword is given, and raises [TypeError] as
    soon as one extra keyword is given, whatever its name and value. *)
Theorem params_rejects_extra_keywords {V : Type}
    (wl cw ct : Q) (core clad : option Q) (px py : option (list Q))
    (m : nat) (acc : Q) (bnd : string) (pml : bool) :
  (exists p,
     EMpyGeometryParameters.__init__ (V := V)
       wl cw ct core clad px py m acc bnd pml [] = Ok p /\
     wavelength p = wl /\ cladding_width p = cw /\ cladding_thickness p = ct /\
     core_index p = core /\ cladding_index p = clad /\ x p = px /\ y p = py /\
     mesh p = m /\ accuracy p = acc /\ boundary p = bnd /\ PML p = pml) /\
  (forall (kw : string * V) (kwargs : list (string * V)),
     EMpyGeometryParameters.__init__
       wl cw ct core clad px py m acc bnd pml (kw :: kwargs)
     = Raise TypeError).
Proof.
  split.
  - eexists. split; [reflexivity|]. repeat split.
  - intros [key val] kwargs. reflexivity.
Qed.

(** X17: a Bragg grating is built exactly when both rectangular solvers
    are; it then has two layers, the left one first, each with the
    wavelength of its own parameters and its own length. It raises exactly
    when the left solver raises, with that exception, or the left one is
    built and the right one raises. *)
Theorem bragg_grating_layers (pl pr : Params) (wl tl ll wr tr lr : Q) (m : nat) :
  (forall ls : Geometry,
     BraggGrating.__init__ pl pr wl tl ll wr tr lr m = Ok ls <->
     exists sl sr,
       get_solver_rect pl wl tl m = Ok sl /\
       get_solver_rect pr wr tr m = Ok sr /\
       ls = [ {| layer_mode_solver := sl; layer_num_modes := m;
                 layer_wavelength := wavelength pl; layer_length := ll |};
              {| layer_mode_solver := sr; layer_num_modes := m;
                 layer_wavelength := wavelength pr; layer_length := lr |} ]) /\
  (forall e : exn,
     BraggGrating.__init__ pl pr wl tl ll wr tr lr m = Raise e <->
     get_solver_rect pl wl tl m = Raise e \/
     (exists sl, get_solver_rect pl wl tl m = Ok sl /\
                 get_solver_rect pr wr tr m = Raise e)).
Proof.
  unfold BraggGrating.__init__, Waveguide.__init__.
  destruct (get_solver_rect pl wl tl m) as [sl|el]; simpl.
  - destruct (get_solver_rect pr wr tr m) as [sr|er]; simpl.
    + split.
      * intros ls. split.
        -- intros [= <-]. eauto.
        -- intros (sl' & sr' & [= <-] & [= <-] & ->). reflexivity.
      * intros e. split; [discriminate|].
        intros [Hl|(sl' & _ & Hr)]; discriminate.
    + split.
      * intros ls. split; [discriminate|].
        intros (? & ? & _ & ? & _). discriminate.
      * intros e. split.
        -- intros [= <-]. right. eauto.
        -- intros [Hl|(sl' & _ & [= <-])]; [discriminate|reflexivity].
  - split.
    + intros ls. split; [discriminate|].
      intros (? & ? & ? & _). discriminate.
    + intros e. split.
      * intros [= <-]. left. reflexivity.
      * intros [[= <-]|(sl' & Hl & _)]; [reflexivity|discriminate].
Qed.

(** X18: a directional coupler that is built has two layers of the same
    length, wavelength and mode count, the first from the profile of two
    channels with channel 1 left out, the second from the profile of both
    channels. *)
Theorem directional_coupler_layers (p : Params) (w t L g : Q) (m : nat)
    (ls : Geometry) :
  DirectionalCoupler.__init__ p w t L g m = Ok ls ->
  exists a b sa sb,
    WaveguideChannels.create_n p w g 2 [1%nat] = Ok a /\
    WaveguideChannels.create_n p w g 2 [] = Ok b /\
    get_solver_index p (Some t) (Some m) (Some a) = Ok sa /\
    get_solver_index p (Some t) (Some m) (Some b) = Ok sb /\
    ls = [ {| layer_mode_solver := sa; layer_num_modes := m;
              layer_wavelength := wavelength p; layer_length := L |};
           {| layer_mode_solver := sb; layer_num_modes := m;
              layer_wavelength := wavelength p; layer_length := L |} ].
Proof.
  unfold DirectionalCoupler.__init__, WaveguideChannels.__init__.
  destruct (WaveguideChannels.create_n p w g 2 [1%nat]) as [a|e] eqn:Ha;
    simpl; [|discriminate].
  destruct (get_solver_index p (Some t) (Some m) (Some a)) as [sa|e] eqn:Hsa;
    simpl; [|discriminate].
  destruct (WaveguideChannels.create_n p w g 2 []) as [b|e] eqn:Hb;
    simpl; [|discriminate].
  destruct (get_solver_index p (Some t) (Some m) (Some b)) as [sb|e] eqn:Hsb;
    simpl; [|discriminate].
  intros [= <-]. exists a, b, sa, sb. auto.
Qed.

End Composites.

(** ** Further properties on concrete inputs *)

Section MoreConcrete.
#[local] Existing Instances spec_solver box_engine cubic_trig.
Import EMpyGeometryParameters DynamicRect2D.

Lemma asymmetric_loop_witness :
  symmetry example_free = false /\
  design example_free
  = flatten_pairs ([(1e-6, 1.25e-6)] ++ [(-0.75e-6, 1.25e-6)]) /\
  vertices example_free
  = static_vertices_left example_free ++ [(1e-6, 1.25e-6)]
      ++ static_vertices_right example_free ++ [(-0.75e-6, 1.25e-6)].
Proof.
  split; [reflexivity|]. split; [reflexivity|].
  apply (asymmetric_loop example_free [(1e-6, 1.25e-6)] [(-0.75e-6, 1.25e-6)]);
    reflexivity.
Defined.

Lemma initial_loop_witness :
  __init__ example_params 1e-6 2.5e-6 2 true true 5 = Ok example_rect /\
  List.length (pairs (design example_rect)) = 2%nat /\
  List.length (vertices example_rect) = 8%nat.
Proof.
  split; [exact example_rect_init|].
  destruct (initial_loop example_params 1e-6 2.5e-6 2 true true 5 example_rect
              example_rect_init) as (Htop & Hbot & Hd & Hv).
  split.
  - rewrite Hd, pairs_flatten. exact Htop.
  - rewrite Hv, !length_app, Htop, Hbot. reflexivity.
Defined.

Lemma staircase_never_raises_witness :
  subpixel example_staircase = false /\
  core_index (params example_staircase) = None /\
  exists n, get_n example_staircase = Ok n /\ has_shape 4 4 n.
Proof.
  split; [reflexivity|]. split; [reflexivity|].
  destruct (staircase_never_raises example_staircase eq_refl)
    as (n & Hn & Hs & _).
  exists n. split; [exact Hn|]. exact Hs.
Defined.

Lemma built_keeps_constructor_state_witness :
  built example_params 1e-6 2.5e-6 true true 5 example_rect /\
  grid_z example_rect = np.linspace 0 2.5e-6 5 /\
  List.length (grid_z example_rect) = 5%nat.
Proof.
  split; [exact example_rect_built|].
  destruct (built_keeps_constructor_state _ _ _ _ _ _ _ example_rect_built)
    as (_ & _ & _ & _ & _ & _ & _ & Hgz & _ & _ & Hlen).
  split; [exact Hgz|exact Hlen].
Defined.

Lemma built_set_design_succeeds_witness :
  built example_params 1e-6 2.5e-6 true true 5 example_rect /\
  exists n,
    get_n example_rect = Ok n /\
    snd (set_design example_rect odd_design) = Ok n.
Proof.
  split; [exact example_rect_built|].
  destruct (built_set_design_succeeds _ _ _ _ _ _ example_rect odd_design
              example_rect_built) as (n & Hn & Hs & _).
  exists n. split; [exact Hn|exact Hs].
Defined.



Lemma create_n_builds_witness :
  x overlap_params = Some [-0.25; 0.25] /\
  cladding_index overlap_params = Some 1.4 /\
  List.length [-0.25; 0.25] = mesh overlap_params /\
  exists n,
    WaveguideChannels.create_n overlap_params 1 0.5 4 [2%nat] = Ok n /\
    List.length n = 2%nat.
Proof.
  split; [reflexivity|]. split; [reflexivity|]. split; [reflexivity|].
  exact (create_n_builds overlap_params 1 0.5 1.4 [-0.25; 0.25] 4 [2%nat]
           eq_refl eq_refl eq_refl).
Defined.


Lemma create_n_entries_witness :
  x overlap_params = Some [-0.25; 0.25] /\
  cladding_index overlap_params = Some 1.4 /\
  WaveguideChannels.create_n overlap_params 1 0.5 2 [1%nat]
  = Ok [Some 3.4; Some 1.4] /\
  forall i v,
    [Some 3.4; Some 1.4] !! i = Some v ->
    WaveguideChannels.entry_after overlap_params 1 0.5 1.4 2 [1%nat]
      [-0.25; 0.25] 2 i v.
Proof.
  assert (Hn : WaveguideChannels.create_n overlap_params 1 0.5 2 [1%nat]
               = Ok [Some 3.4; Some 1.4]) by reflexivity.
  split; [reflexivity|]. split; [reflexivity|]. split; [exact Hn|].
  exact (create_n_entries overlap_params 1 0.5 1.4 [-0.25; 0.25] 2 [1%nat]
           [Some 3.4; Some 1.4] eq_refl eq_refl Hn).
Defined.

Lemma coupler_input_differs_in_channel_1_witness :
  x overlap_params = Some [-0.25; 0.25] /\
  cladding_index overlap_params = Some 1.4 /\
  WaveguideChannels.create_n overlap_params 1 0.5 2 [1%nat]
  = Ok [Some 3.4; Some 1.4] /\
  WaveguideChannels.create_n overlap_params 1 0.5 2 []
  = Ok [Some 3.4; Some 3.4] /\
  forall i va vb,
    [Some 3.4; Some 1.4] !! i = Some va ->
    [Some 3.4; Some 3.4] !! i = Some vb ->
    va = vb \/
    (vb = core_index overlap_params /\
     exists xi, np.broadcast_at [-0.25; 0.25] i = Some xi /\
                WaveguideChannels.inside 1 0.5 2 1 xi).
Proof.
  assert (Ha : WaveguideChannels.create_n overlap_params 1 0.5 2 [1%nat]
               = Ok [Some 3.4; Some 1.4]) by reflexivity.
  assert (Hb : WaveguideChannels.create_n overlap_params 1 0.5 2 []
               = Ok [Some 3.4; Some 3.4]) by reflexivity.
  split; [reflexivity|]. split; [reflexivity|]. split; [exact Ha|].
  split; [exact Hb|].
  exact (coupler_input_differs_in_channel_1 overlap_params 1 0.5 1.4
           [-0.25; 0.25] _ _ eq_refl eq_refl Ha Hb).
Defined.

Lemma directional_coupler_layers_witness :
  exists ls,
    DirectionalCoupler.__init__ overlap_params 1 0.22 25 0.5 1 = Ok ls /\
    map layer_length ls = [25; 25].
Proof.
  destruct (DirectionalCoupler.__init__ overlap_params 1 0.22 25 0.5 1)
    as [ls|e] eqn:Hinit; [|vm_compute in Hinit; discriminate].
  exists ls. split; [reflexivity|].
  destruct (directional_coupler_layers _ _ _ _ _ _ _ Hinit)
    as (a & b & sa & sb & _ & _ & _ & _ & ->).
  reflexivity.
Defined.


End MoreConcrete.
